(** * evalfilter: the bytecode virtual machine and its built-in functions

    A shallow embedding of [vm/vm.go] (package [vm]), of the built-in
    functions of package [environment] and of [object.Array], followed by
    the properties of the virtual machine that the specification states.

    Conventions.
    - A Go [int64] is a [Z]; arithmetic wraps with [wrap64].
    - A Go [float64] is a primitive IEEE-754 binary64 float.
    - A Go [string] is a [string] (a sequence of bytes).
    - A Go map with string keys is a [gmap string _].
    - A Go method returning [error] returns a [Res]; run-time panics and
      [os.Exit] are outcomes of their own, see [Fault]. *)

From Stdlib Require Import ZArith Lia List Strings.Ascii.
From Stdlib Require Import Floats.PrimFloat Numbers.Cyclic.Int63.Uint63.
From stdpp Require Import base option list strings gmap pretty.

Local Open Scope string_scope.
Local Open Scope Z_scope.

#[local] Set Warnings "-register-all".

(** ** What the Go standard library and the Go runtime provide

    The functions below belong to Go, not to this repository.  They are
    taken as an interface; the repository's code is embedded on top of
    it and every theorem holds for every implementation of it. *)
Class GoRuntime := {
  (** [regexp.Regexp], [regexp.Compile] (the right injection carries
      [err.Error()]) and [Regexp.MatchString]. *)
  Regexp : Type;
  regexp_Compile : string -> Regexp + string;
  Regexp_MatchString : Regexp -> string -> bool;
  (** [strconv.ParseFloat(s, 64)] and [strconv.ParseInt(s, 10, 64)];
      [None] stands for a non-nil error. *)
  strconv_ParseFloat : string -> option float;
  strconv_ParseInt : string -> option Z;
  (** The text of a [float64], as [object.Float.Inspect] prints it. *)
  strconv_FormatFloat : float -> string;
  (** [strings.ToLower], [strings.ToUpper], [utf8.RuneCountInString]. *)
  strings_ToLower : string -> string;
  strings_ToUpper : string -> string;
  utf8_RuneCountInString : string -> Z;
  (** [strings.TrimFunc(s, unicode.IsSpace)] and
      [strings.TrimRightFunc(s, unicode.IsSpace)]: the Unicode-aware slow
      paths of [strings.TrimSpace]. *)
  strings_TrimFunc_IsSpace : string -> string;
  strings_TrimRightFunc_IsSpace : string -> string;
  (** [math.Pow], and the conversion [int64(f)] / [int(f)] of a float
      (truncation; the result for NaN and out-of-range values is left to
      the platform by the language). *)
  math_Pow : float -> float -> float;
  int64_of_float64 : float -> Z;
  (** Whether a pointer to a freshly allocated zero-size object and the
      pointer held by a package-level variable compare equal: "pointers
      to distinct zero-size variables may or may not be equal". *)
  zero_size_pointers_equal : bool
}.

(** ** Machine integers and floats *)

Definition wrap64 (z : Z) : Z := (z + 2 ^ 63) mod 2 ^ 64 - 2 ^ 63.

(** [float64(i)] for an [int64] [i]: the nearest float. *)
Definition float64_of_int64 (i : Z) : float :=
  if i =? - 2 ^ 63 then PrimFloat.opp 0x1p63%float
  else if i <? 0 then PrimFloat.opp (PrimFloat.of_uint63 (Uint63.of_Z (- i)))
  else PrimFloat.of_uint63 (Uint63.of_Z i).

Module code.

(** [code.Opcode]: the opcodes [vm.go] names.  [OpUnknown] stands for
    every byte that is none of these constants (the [default] arm of
    the dispatch). *)
Inductive Opcode : Set :=
| OpNop | OpPush | OpConstant | OpLookup | OpSet
| OpAdd | OpSub | OpMul | OpDiv | OpMod | OpPower
| OpLess | OpLessEqual | OpGreater | OpGreaterEqual | OpEqual | OpNotEqual
| OpMatches | OpNotMatches | OpAnd | OpOr
| OpArray | OpArrayIndex | OpBang | OpMinus | OpRoot
| OpTrue | OpFalse | OpReturn | OpJump | OpJumpIfFalse | OpCall
| OpCodeSingleArg | OpFinal
| OpUnknown.

#[global] Instance Opcode_eq_dec : EqDecision Opcode.
Proof. solve_decision. Defined.

(** Modelled from the spec: [code.Length] is not among the sources.
    "Exactly one operand size exists: 16-bit big-endian"; the opcode
    table gives an operand to PUSH, CONSTANT, LOOKUP, ARRAY, JUMP,
    JUMP_IF_FALSE and CALL, and none to the others. *)
Definition Length (op : Opcode) : Z :=
  match op with
  | OpPush | OpConstant | OpLookup | OpArray | OpJump | OpJumpIfFalse | OpCall => 3
  | _ => 1
  end.

(** The numeric values of the opcode constants are not among the
    sources: the conversion [code.Opcode(b)] of a byte, followed by
    the comparison with the constants, is an interface. *)
Class Table := { of_byte : Z -> Opcode }.

End code.

Module object.

(** [object.Type], the type tag of a value: the constants that [vm.go]
    compares [Type()] with, and [BOOLEAN], [NULL] for the two other kinds
    of value. *)
Inductive Type_ : Set := INTEGER | FLOAT | STRING | BOOLEAN | NULL | ARRAY.

Definition Type_eqb (a b : Type_) : bool :=
  match a, b with
  | INTEGER, INTEGER | FLOAT, FLOAT | STRING, STRING
  | BOOLEAN, BOOLEAN | NULL, NULL | ARRAY, ARRAY => true
  | _, _ => false
  end.

(** Modelled from the spec: the constants of [object.Type] are not
    among the sources; [type(x)] is the "lowercase name of x's type
    tag (integer, float, string, boolean, array, null)". *)
Definition Type_name (t : Type_) : string :=
  match t with
  | INTEGER => "INTEGER" | FLOAT => "FLOAT" | STRING => "STRING"
  | BOOLEAN => "BOOLEAN" | NULL => "NULL" | ARRAY => "ARRAY"
  end.

(** Where the object a pointer refers to lives.  [vm.go] compares
    pointers with its three package-level objects [True], [False] and
    [Null]; [Global] marks these, [Heap] an object made at run time by
    a composite literal such as [&object.Boolean{Value: b}]. *)
Inductive Alloc : Set := Global | Heap.

(** [object.Object]: a pointer to one of the six kinds of value.  The
    numbers, strings and arrays are always made at run time; the
    booleans and nulls carry where they live.  [Boolean Global true]
    is [vm.True], [Boolean Global false] is [vm.False] and
    [Null Global] is [vm.Null]. *)
Inductive Object : Type :=
| Integer (Value : Z)
| Float (Value : float)
| String (Value : string)
| Boolean (loc : Alloc) (Value : bool)
| Null (loc : Alloc)
| Array (Elements : list Object).

(** The method [Type]. *)
Definition Type' (o : Object) : Type_ :=
  match o with
  | Integer _ => INTEGER
  | Float _ => FLOAT
  | String _ => STRING
  | Boolean _ _ => BOOLEAN
  | Null _ => NULL
  | Array _ => ARRAY
  end.

(** [strings.Join]. *)
Fixpoint Join (elems : list string) (sep : string) : string :=
  match elems with
  | [] => ""
  | [e] => e
  | e :: rest => e +:+ sep +:+ Join rest sep
  end.

Section Methods.
Context `{GoRuntime}.

(** Modelled from the spec: the methods [Inspect] of the integers,
    floats, strings, booleans and nulls are not among the sources.  The
    inspect form is the "universal coercion to string (e.g. integer 3 →
    3, boolean true → true, array [1,x] → [1, x])".  The arm of the
    arrays is [Array.Inspect] of the sources. *)
Fixpoint Inspect (o : Object) : string :=
  match o with
  | Integer v => pretty v
  | Float v => strconv_FormatFloat v
  | String v => v
  | Boolean _ v => if v then "true" else "false"
  | Null _ => "null"
  | Array elements => "[" +:+ Join (map Inspect elements) ", " +:+ "]"
  end.

(** Modelled from the spec: the methods [True] of the integers,
    floats, strings, booleans and nulls are not among the sources.
    "Boolean(b) → b; Integer(0), Float(0.0), empty String, empty Array,
    Null → false; otherwise true".  The arm of the arrays is
    [Array.True] of the sources. *)
Definition True (o : Object) : bool :=
  match o with
  | Integer v => negb (v =? 0)
  | Float v => negb (PrimFloat.eqb v 0%float)
  | String v => negb (String.eqb v "")
  | Boolean _ v => v
  | Null _ => false
  | Array elements => negb (Z.of_nat (length elements) =? 0)
  end.

End Methods.

End object.

(** ** Results of fallible code *)

(** The errors [vm.go] and the stack make with [fmt.Errorf], by kind;
    the operands of the message are the constructor's arguments. *)
Inductive VMError : Type :=
| EmptyProgram
| MissingReturn
| StackUnderflow
| DivisionByZero
| UnknownOperator (l : object.Type_) (op : code.Opcode) (r : object.Type_)
| TypeMismatch (l : object.Type_) (op : code.Opcode) (r : object.Type_)
| IndexOperand (t : object.Type_)
| IndexNotInteger (t : object.Type_)
| UnsupportedNegation (t : object.Type_)
| UnsupportedSquareRoot (t : object.Type_)
| UnknownFunction (name : string)
| MatchFunctionMissing
| FakeInstruction (op : code.Opcode)
| UnhandledOpcode (op : code.Opcode).

(** The run-time panics of Go that the embedded code can reach. *)
Inductive GoPanic : Set :=
| IndexOutOfRange
| SliceBoundsOutOfRange
| IntegerDivideByZero
| InterfaceConversion
| ReflectMisuse.

(** How a call ends when it does not return normally: with a non-nil
    [error], with a panic, or with [os.Exit]. *)
Inductive Fault : Type :=
| Error (e : VMError)
| Panic (p : GoPanic)
| Exit (status : Z).

Inductive Res (A : Type) : Type :=
| Ok (a : A)
| Fail (f : Fault).
Arguments Ok {A} a.
Arguments Fail {A} f.

Definition bind {A B : Type} (m : Res A) (k : A -> Res B) : Res B :=
  match m with
  | Ok a => k a
  | Fail f => Fail f
  end.

Notation "'let*' x ':=' m 'in' k" := (bind m (fun x => k))
  (at level 10, x name, m at level 100, k at level 200).
Notation "'let*' ' p ':=' m 'in' k" := (bind m (fun p => k))
  (at level 10, p strict pattern, m at level 100, k at level 200).

(** [s[i]] on a Go slice: a panic when the index is out of range. *)
Definition index {A : Type} (s : list A) (i : Z) : Res A :=
  if (i <? 0) || (Z.of_nat (length s) <=? i) then Fail (Panic IndexOutOfRange)
  else match s !! Z.to_nat i with
       | Some x => Ok x
       | None => Fail (Panic IndexOutOfRange)
       end.

(** ** Package [strings] *)

Module strings.

(** [strings.TrimPrefix]. *)
Definition TrimPrefix (s prefix : string) : string :=
  if String.prefix prefix s
  then String.substring (String.length prefix) (String.length s - String.length prefix) s
  else s.

(** [strings.Split(s, sep)] for a separator [sep] of one byte. *)
Fixpoint Split (s : string) (sep : Ascii.ascii) : list string :=
  match s with
  | EmptyString => [""]
  | String.String c rest =>
      if Ascii.eqb c sep then "" :: Split rest sep
      else match Split rest sep with
           | first :: others => String.String c first :: others
           | [] => [String.String c ""]
           end
  end.

(** The table [asciiSpace] of package [strings]: tab, line feed,
    vertical tab, form feed, carriage return and space. *)
Definition asciiSpace (c : Ascii.ascii) : bool :=
  let n := Z.of_N (Ascii.N_of_ascii c) in
  (n =? 9) || (n =? 10) || (n =? 11) || (n =? 12) || (n =? 13) || (n =? 32).

(** [c >= utf8.RuneSelf]. *)
Definition nonASCII (c : Ascii.ascii) : bool := 128 <=? Z.of_N (Ascii.N_of_ascii c).

(** One of the two loops of [strings.TrimSpace]: skip ASCII spaces from
    the front; the boolean tells that a non-ASCII byte stopped the loop. *)
Fixpoint skipSpace (s : string) : string * bool :=
  match s with
  | EmptyString => ("", false)
  | String.String c rest =>
      if nonASCII c then (s, true)
      else if asciiSpace c then skipSpace rest
      else (s, false)
  end.

Section TrimSpace.
Context `{GoRuntime}.

(** [strings.TrimSpace]: the ASCII fast path from both ends, and the
    Unicode-aware path as soon as a byte of [0x80] or more is met. *)
Definition TrimSpace (s : string) : string :=
  let '(fromStart, unicode) := skipSpace s in
  if unicode then strings_TrimFunc_IsSpace fromStart
  else
    let '(reversed, unicode) := skipSpace (String.rev fromStart) in
    if unicode then strings_TrimRightFunc_IsSpace (String.rev reversed)
    else String.rev reversed.

End TrimSpace.

End strings.

(** ** Package [stack] *)

Module stack.

(** Modelled from the spec: package [stack] is not among the sources.
    "LIFO of Values.  Operations: push, pop, empty.  pop on empty fails
    with StackUnderflow".  The top of the stack is the head. *)
Definition Stack : Type := list object.Object.

(** Modelled from the spec: [stack.New], the empty stack. *)
Definition New : Stack := [].

(** Modelled from the spec: [Push]. *)
Definition Push (o : object.Object) (s : Stack) : Stack := o :: s.

(** Modelled from the spec: [Pop]; "pop on empty fails with
    StackUnderflow". *)
Definition Pop (s : Stack) : Res (object.Object * Stack) :=
  match s with
  | [] => Fail (Error StackUnderflow)
  | o :: rest => Ok (o, rest)
  end.

End stack.

(** ** Package [environment] *)

Module environment.

Section Builtins.
Context `{GoRuntime}.

(** What a call of a function can change outside the machine: the
    package-level [regCache] and the standard output. *)
Record World : Type := {
  regCache : gmap string Regexp;
  stdout : list string
}.

Definition setRegCache (c : gmap string Regexp) (w : World) : World :=
  {| regCache := c; stdout := stdout w |}.

(** [fmt.Printf]: one more chunk of text on the standard output. *)
Definition Printf (text : string) (w : World) : World :=
  {| regCache := regCache w; stdout := stdout w ++ [text] |}.

(** A function of the script: [func(args []object.Object) object.Object]. *)
Definition Callable : Type :=
  list object.Object -> World -> Res (object.Object * World).

(** A function that touches nothing outside. *)
Definition pure (f : list object.Object -> Res object.Object) : Callable :=
  fun args w => let* o := f args in Ok (o, w).

Definition len (args : list object.Object) : Z := Z.of_nat (length args).

(** [fnFloat]. *)
Definition fnFloat (args : list object.Object) : Res object.Object :=
  if negb (len args =? 1) then Ok (object.Null object.Heap)
  else
    let* a := index args 0 in
    let str := object.Inspect a in
    match strconv_ParseFloat str with
    | None => Ok (object.Null object.Heap)
    | Some i => Ok (object.Float i)
    end.

(** [fnInt]. *)
Definition fnInt (args : list object.Object) : Res object.Object :=
  if negb (len args =? 1) then Ok (object.Null object.Heap)
  else
    let* a := index args 0 in
    let str := object.Inspect a in
    match strconv_ParseInt str with
    | None => Ok (object.Null object.Heap)
    | Some i => Ok (object.Integer i)
    end.

(** [fnLen]. *)
Definition fnLen (args : list object.Object) : Res object.Object :=
  if negb (len args =? 1) then Ok (object.Null object.Heap)
  else
    let* a := index args 0 in
    match a with
    | object.Array elements => Ok (object.Integer (Z.of_nat (length elements)))
    | _ =>
        let str := object.Inspect a in
        let sum := utf8_RuneCountInString str in
        Ok (object.Integer sum)
    end.

(** [fnLower]. *)
Definition fnLower (args : list object.Object) : Res object.Object :=
  if negb (len args =? 1) then Ok (object.Null object.Heap)
  else
    let* a := index args 0 in
    Ok (object.String (strings_ToLower (object.Inspect a))).

(** The loop of [fnMatch] over the lines of the input: it returns at
    the first line that matches. *)
Fixpoint matchLines (r : Regexp) (lines : list string) : bool :=
  match lines with
  | [] => false
  | s :: rest =>
      let s := strings.TrimSpace s in
      if Regexp_MatchString r s then true else matchLines r rest
  end.

Definition newline : Ascii.ascii := Ascii.ascii_of_nat 10.

(** [fnMatch]. *)
Definition fnMatch : Callable := fun args w =>
  if negb (len args =? 2) then Ok (object.Boolean object.Heap false, w)
  else
    let* a0 := index args 0 in
    let* a1 := index args 1 in
    let str := object.Inspect a0 in
    let reg := object.Inspect a1 in
    match regCache w !! reg with
    | Some r =>
        Ok (object.Boolean object.Heap (matchLines r (strings.Split str newline)), w)
    | None =>
        match regexp_Compile reg with
        | inr err =>
            Ok (object.Boolean object.Heap false,
                Printf ("Invalid regular expression " +:+ reg +:+ " " +:+ err) w)
        | inl r =>
            Ok (object.Boolean object.Heap (matchLines r (strings.Split str newline)),
                setRegCache (<[reg := r]> (regCache w)) w)
        end
    end.

(** [fnString]. *)
Definition fnString (args : list object.Object) : Res object.Object :=
  if negb (len args =? 1) then Ok (object.Null object.Heap)
  else
    let* a := index args 0 in
    Ok (object.String (object.Inspect a)).

(** [fnTrim]. *)
Definition fnTrim (args : list object.Object) : Res object.Object :=
  let str := fold_left (fun str e => str +:+ object.Inspect e) args "" in
  Ok (object.String (strings.TrimSpace str)).

(** [fnType]. *)
Definition fnType (args : list object.Object) : Res object.Object :=
  if negb (len args =? 1) then Ok (object.Null object.Heap)
  else
    let* arg := index args 0 in
    let val := object.Type_name (object.Type' arg) in
    Ok (object.String (strings_ToLower val)).

(** [fnPrint]. *)
Definition fnPrint : Callable := fun args w =>
  Ok (object.Integer 0, fold_left (fun w e => Printf (object.Inspect e) w) args w).

(** [fnUpper]. *)
Definition fnUpper (args : list object.Object) : Res object.Object :=
  if negb (len args =? 1) then Ok (object.Null object.Heap)
  else
    let* a := index args 0 in
    Ok (object.String (strings_ToUpper (object.Inspect a))).

(** Modelled from the spec: the type [Environment] and its methods are
    not among the sources.  "Two keyed tables: variables (name → Value)
    and functions (name → native callable)." *)
Record Environment : Type := {
  values : gmap string object.Object;
  functions : gmap string Callable
}.

(** Modelled from the spec: [Get], the variable of a name, if any. *)
Definition Get (e : Environment) (name : string) : option object.Object :=
  values e !! name.

(** Modelled from the spec: [Set]; "env[name.inspect()] := value". *)
Definition Set_ (name : string) (val : object.Object) (e : Environment) : Environment :=
  {| values := <[name := val]> (values e); functions := functions e |}.

(** Modelled from the spec: [GetFunction], the callable of a name, if
    any. *)
Definition GetFunction (e : Environment) (name : string) : option Callable :=
  functions e !! name.

(** Modelled from the spec: [environment.New] is not among the
    sources.  "Built-in functions always present at construction time:
    float, int, len, lower, upper, string, trim, type, print, match." *)
Definition New : Environment :=
  {| values := ∅;
     functions :=
       <["float" := pure fnFloat]> (<["int" := pure fnInt]> (<["len" := pure fnLen]>
       (<["lower" := pure fnLower]> (<["upper" := pure fnUpper]>
       (<["string" := pure fnString]> (<["trim" := pure fnTrim]>
       (<["type" := pure fnType]> (<["print" := fnPrint]>
       (<["match" := fnMatch]> ∅))))))))) |}.

End Builtins.

End environment.

(** ** What reflection shows of the host's record *)

Module reflect.

(** An element of a slice, by the dynamic type that the type
    assertions of [createArrayFromSlice] test; [ElemOther] is an element
    of any other type. *)
Inductive Element : Type :=
| ElemString (s : string)
| ElemBool (b : bool)
| ElemFloat32 (f : float)
| ElemFloat64 (ff : float)
| ElemInt (d : Z)
| ElemInt32 (dd : Z)
| ElemInt64 (ddd : Z)
| ElemOther.

(** A field of a struct or the value under a key of a map, by its
    [Kind]: [Slice], [Int] or [Int64], [Float32] or [Float64], [String],
    [Bool]; [Other] is every other kind. *)
Inductive Field : Type :=
| Slice (elems : list Element)
| Int (v : Z)
| Float (v : float)
| String (v : string)
| Bool (v : bool)
| Other.

(** The argument [obj interface{}] of [Run]: [nil], a
    [map[string]interface{}] (its entries in the order of [MapKeys]), a
    struct or a pointer to one (its fields in the order of declaration),
    or a value of another shape, on which [NumField] panics. *)
Inductive Record : Type :=
| Nil
| Map (entries : list (string * Field))
| Struct (fields : list (string * Field))
| Unsupported.

End reflect.

(** ** Package [vm] *)

Module vm.

(** [True], [False] and [Null], the package-level objects. *)
Definition True : object.Object := object.Boolean object.Global true.
Definition False : object.Object := object.Boolean object.Global false.
Definition Null : object.Object := object.Null object.Global.

Section Machine.
Context `{GoRuntime} `{code.Table}.

(** [VM]: the state of the machine. *)
Record VM : Type := {
  constants : list object.Object;
  bytecode : list Z;
  stack : stack.Stack;
  environment : environment.Environment;
  fields : gmap string object.Object
}.

Definition setStack (s : stack.Stack) (vm : VM) : VM :=
  {| constants := constants vm; bytecode := bytecode vm; stack := s;
     environment := environment vm; fields := fields vm |}.

Definition setEnvironment (e : environment.Environment) (vm : VM) : VM :=
  {| constants := constants vm; bytecode := bytecode vm; stack := stack vm;
     environment := e; fields := fields vm |}.

Definition setFields (f : gmap string object.Object) (vm : VM) : VM :=
  {| constants := constants vm; bytecode := bytecode vm; stack := stack vm;
     environment := environment vm; fields := f |}.

(** [New]. *)
Definition New (constants : list object.Object) (bytecode : list Z)
    (env : environment.Environment) : VM :=
  {| constants := constants; bytecode := bytecode; stack := stack.New;
     environment := env; fields := ∅ |}.

(** [vm.stack.Push(o)] and [vm.stack.Pop()]. *)
Definition push (o : object.Object) (vm : VM) : VM :=
  setStack (stack.Push o (stack vm)) vm.

Definition pop (vm : VM) : Res (object.Object * VM) :=
  let* '(o, s) := stack.Pop (stack vm) in Ok (o, setStack s vm).

(** [nativeBoolToBooleanObject]. *)
Definition nativeBoolToBooleanObject (input : bool) : object.Object :=
  if input then vm.True else vm.False.

(** *** Reflection of the record *)

(** One turn of the loop of [createArrayFromSlice]: the object for an
    element, or the exit of the process at "FATAL!". *)
Definition convertElement (e : reflect.Element) : Res object.Object :=
  match e with
  | reflect.ElemString s => Ok (object.String s)
  | reflect.ElemBool b => Ok (object.Boolean object.Heap b)
  | reflect.ElemFloat32 f => Ok (object.Float f)
  | reflect.ElemFloat64 ff => Ok (object.Float ff)
  | reflect.ElemInt d => Ok (object.Integer d)
  | reflect.ElemInt32 dd => Ok (object.Integer dd)
  | reflect.ElemInt64 ddd => Ok (object.Integer ddd)
  | reflect.ElemOther => Fail (Exit 1)
  end.

Fixpoint convertElements (elems : list reflect.Element) (el : list object.Object)
    : Res (list object.Object) :=
  match elems with
  | [] => Ok el
  | e :: rest =>
      let* o := convertElement e in
      convertElements rest (el ++ [o])
  end.

(** [createArrayFromSlice]. *)
Definition createArrayFromSlice (elems : list reflect.Element) : Res object.Object :=
  let* el := convertElements elems [] in
  Ok (object.Array el).

(** The [switch field.Kind()] of [inspectObject], the same in its two
    loops. *)
Definition convertField (field : reflect.Field) : Res object.Object :=
  match field with
  | reflect.Slice elems => createArrayFromSlice elems
  | reflect.Int v => Ok (object.Integer v)
  | reflect.Float v => Ok (object.Float v)
  | reflect.String v => Ok (object.String v)
  | reflect.Bool v => Ok (object.Boolean object.Heap v)
  | reflect.Other => Ok (object.Null object.Heap)
  end.

Fixpoint inspectFields (entries : list (string * reflect.Field))
    (flds : gmap string object.Object) : Res (gmap string object.Object) :=
  match entries with
  | [] => Ok flds
  | (name, field) :: rest =>
      let* ret := convertField field in
      inspectFields rest (<[name := ret]> flds)
  end.

(** [inspectObject]. *)
Definition inspectObject (obj : reflect.Record) (vm : VM) : Res VM :=
  match obj with
  | reflect.Nil => Ok vm
  | reflect.Map entries =>
      let* flds := inspectFields entries (fields vm) in Ok (setFields flds vm)
  | reflect.Struct entries =>
      let* flds := inspectFields entries (fields vm) in Ok (setFields flds vm)
  | reflect.Unsupported => Fail (Panic ReflectMisuse)
  end.

(** [lookup]. *)
Definition lookup (obj : reflect.Record) (name : string) (vm : VM)
    : Res (object.Object * VM) :=
  let name := strings.TrimPrefix name "$" in
  match environment.Get (environment vm) name with
  | Some val => Ok (val, vm)
  | None =>
      let* vm := if (size (fields vm) =? 0)%nat then inspectObject obj vm else Ok vm in
      match fields vm !! name with
      | Some cached => Ok (cached, vm)
      | None => Ok (vm.Null, vm)
      end
  end.

(** *** Binary operators *)

(** [evalIntegerInfixExpression]: integer OP integer. *)
Definition evalIntegerInfixExpression (op : code.Opcode) (left right : object.Object)
    (vm : VM) : Res VM :=
  match left, right with
  | object.Integer leftVal, object.Integer rightVal =>
      match op with
      | code.OpAdd => Ok (push (object.Integer (wrap64 (leftVal + rightVal))) vm)
      | code.OpSub => Ok (push (object.Integer (wrap64 (leftVal - rightVal))) vm)
      | code.OpMul => Ok (push (object.Integer (wrap64 (leftVal * rightVal))) vm)
      | code.OpDiv =>
          if rightVal =? 0 then Fail (Error DivisionByZero)
          else Ok (push (object.Integer (wrap64 (Z.quot leftVal rightVal))) vm)
      | code.OpMod =>
          if rightVal =? 0 then Fail (Panic IntegerDivideByZero)
          else Ok (push (object.Integer (Z.rem leftVal rightVal)) vm)
      | code.OpPower =>
          Ok (push (object.Integer
                (int64_of_float64 (math_Pow (float64_of_int64 leftVal)
                                            (float64_of_int64 rightVal)))) vm)
      | code.OpLess => Ok (push (nativeBoolToBooleanObject (leftVal <? rightVal)) vm)
      | code.OpLessEqual => Ok (push (nativeBoolToBooleanObject (leftVal <=? rightVal)) vm)
      | code.OpGreater => Ok (push (nativeBoolToBooleanObject (leftVal >? rightVal)) vm)
      | code.OpGreaterEqual => Ok (push (nativeBoolToBooleanObject (leftVal >=? rightVal)) vm)
      | code.OpEqual => Ok (push (nativeBoolToBooleanObject (leftVal =? rightVal)) vm)
      | code.OpNotEqual => Ok (push (nativeBoolToBooleanObject (negb (leftVal =? rightVal))) vm)
      | _ => Fail (Error (UnknownOperator (object.Type' left) op (object.Type' right)))
      end
  | _, _ => Fail (Panic InterfaceConversion)
  end.

(** The [switch op] that [evalFloatInfixExpression],
    [evalFloatIntegerInfixExpression] and
    [evalIntegerFloatInfixExpression] each spell out, on the two floats
    they have made of their operands. *)
Definition floatInfix (op : code.Opcode) (left right : object.Object)
    (leftVal rightVal : float) (vm : VM) : Res VM :=
  match op with
  | code.OpAdd => Ok (push (object.Float (PrimFloat.add leftVal rightVal)) vm)
  | code.OpSub => Ok (push (object.Float (PrimFloat.sub leftVal rightVal)) vm)
  | code.OpMul => Ok (push (object.Float (PrimFloat.mul leftVal rightVal)) vm)
  | code.OpDiv =>
      if PrimFloat.eqb rightVal 0%float then Fail (Error DivisionByZero)
      else Ok (push (object.Float (PrimFloat.div leftVal rightVal)) vm)
  | code.OpMod =>
      let l := int64_of_float64 leftVal in
      let r := int64_of_float64 rightVal in
      if r =? 0 then Fail (Panic IntegerDivideByZero)
      else Ok (push (object.Float (float64_of_int64 (Z.rem l r))) vm)
  | code.OpPower => Ok (push (object.Float (math_Pow leftVal rightVal)) vm)
  | code.OpLess => Ok (push (nativeBoolToBooleanObject (PrimFloat.ltb leftVal rightVal)) vm)
  | code.OpLessEqual => Ok (push (nativeBoolToBooleanObject (PrimFloat.leb leftVal rightVal)) vm)
  | code.OpGreater => Ok (push (nativeBoolToBooleanObject (PrimFloat.ltb rightVal leftVal)) vm)
  | code.OpGreaterEqual => Ok (push (nativeBoolToBooleanObject (PrimFloat.leb rightVal leftVal)) vm)
  | code.OpEqual => Ok (push (nativeBoolToBooleanObject (PrimFloat.eqb leftVal rightVal)) vm)
  | code.OpNotEqual => Ok (push (nativeBoolToBooleanObject (negb (PrimFloat.eqb leftVal rightVal))) vm)
  | _ => Fail (Error (UnknownOperator (object.Type' left) op (object.Type' right)))
  end.

(** [evalFloatInfixExpression]: float OP float. *)
Definition evalFloatInfixExpression (op : code.Opcode) (left right : object.Object)
    (vm : VM) : Res VM :=
  match left, right with
  | object.Float leftVal, object.Float rightVal =>
      floatInfix op left right leftVal rightVal vm
  | _, _ => Fail (Panic InterfaceConversion)
  end.

(** [evalFloatIntegerInfixExpression]: float OP int. *)
Definition evalFloatIntegerInfixExpression (op : code.Opcode) (left right : object.Object)
    (vm : VM) : Res VM :=
  match left, right with
  | object.Float leftVal, object.Integer r =>
      let rightVal := float64_of_int64 r in
      floatInfix op left right leftVal rightVal vm
  | _, _ => Fail (Panic InterfaceConversion)
  end.

(** [evalIntegerFloatInfixExpression]: int OP float. *)
Definition evalIntegerFloatInfixExpression (op : code.Opcode) (left right : object.Object)
    (vm : VM) : Res VM :=
  match left, right with
  | object.Integer l, object.Float rightVal =>
      let leftVal := float64_of_int64 l in
      floatInfix op left right leftVal rightVal vm
  | _, _ => Fail (Panic InterfaceConversion)
  end.

(** The arms [OpMatches] and [OpNotMatches] of
    [evalStringInfixExpression]: the call of the function registered as
    [match], and the canonical boolean pushed for its answer
    ([negate] for [OpNotMatches]). *)
Definition callMatch (negate : bool) (l r : object.Object) (vm : VM)
    (w : environment.World) : Res (VM * environment.World) :=
  let args := [l; r] in
  match environment.GetFunction (environment vm) "match" with
  | None => Fail (Error MatchFunctionMissing)
  | Some out =>
      let* '(ret, w) := out args w in
      match ret with
      | object.Boolean _ value =>
          if xorb negate value then Ok (push vm.True vm, w) else Ok (push vm.False vm, w)
      | _ => Fail (Panic InterfaceConversion)
      end
  end.

(** [evalStringInfixExpression]: string OP string. *)
Definition evalStringInfixExpression (op : code.Opcode) (left right : object.Object)
    (vm : VM) (w : environment.World) : Res (VM * environment.World) :=
  match left, right with
  | object.String l, object.String r =>
      match op with
      | code.OpEqual => Ok (push (nativeBoolToBooleanObject (String.eqb l r)) vm, w)
      | code.OpNotEqual => Ok (push (nativeBoolToBooleanObject (negb (String.eqb l r))) vm, w)
      | code.OpGreaterEqual => Ok (push (nativeBoolToBooleanObject (String.leb r l)) vm, w)
      | code.OpGreater => Ok (push (nativeBoolToBooleanObject (String.ltb r l)) vm, w)
      | code.OpLessEqual => Ok (push (nativeBoolToBooleanObject (String.leb l r)) vm, w)
      | code.OpLess => Ok (push (nativeBoolToBooleanObject (String.ltb l r)) vm, w)
      | code.OpMatches => callMatch false left right vm w
      | code.OpNotMatches => callMatch true left right vm w
      | code.OpAdd => Ok (push (object.String (l +:+ r)) vm, w)
      | _ => Fail (Error (UnknownOperator (object.Type' left) op (object.Type' right)))
      end
  | _, _ => Fail (Panic InterfaceConversion)
  end.

(** [evalBooleanInfixExpression]: bool OP bool. *)
Definition evalBooleanInfixExpression (op : code.Opcode) (left right : object.Object)
    (vm : VM) (w : environment.World) : Res (VM * environment.World) :=
  let l := object.String (object.Inspect left) in
  let r := object.String (object.Inspect right) in
  evalStringInfixExpression op l r vm w.

Definition isType (o : object.Object) (t : object.Type_) : bool :=
  object.Type_eqb (object.Type' o) t.

Definition isOp (op : code.Opcode) (c : code.Opcode) : bool :=
  match op, c with
  | code.OpAnd, code.OpAnd | code.OpOr, code.OpOr => true
  | _, _ => false
  end.

(** [executeBinaryOperation]. *)
Definition executeBinaryOperation (op : code.Opcode) (vm : VM) (w : environment.World)
    : Res (VM * environment.World) :=
  let* '(right_, vm) := pop vm in
  let* '(left_, vm) := pop vm in
  if isType left_ object.INTEGER && isType right_ object.INTEGER then
    let* vm := evalIntegerInfixExpression op left_ right_ vm in Ok (vm, w)
  else if isType left_ object.FLOAT && isType right_ object.FLOAT then
    let* vm := evalFloatInfixExpression op left_ right_ vm in Ok (vm, w)
  else if isType left_ object.FLOAT && isType right_ object.INTEGER then
    let* vm := evalFloatIntegerInfixExpression op left_ right_ vm in Ok (vm, w)
  else if isType left_ object.INTEGER && isType right_ object.FLOAT then
    let* vm := evalIntegerFloatInfixExpression op left_ right_ vm in Ok (vm, w)
  else if isType left_ object.STRING && isType right_ object.STRING then
    evalStringInfixExpression op left_ right_ vm w
  else if isOp op code.OpAnd then
    if negb (object.True left_) then Ok (push vm.False vm, w)
    else if object.True right_ then Ok (push vm.True vm, w)
    else Ok (push vm.False vm, w)
  else if isOp op code.OpOr then
    if object.True left_ then Ok (push vm.True vm, w)
    else if object.True right_ then Ok (push vm.True vm, w)
    else Ok (push vm.False vm, w)
  else if isType left_ object.BOOLEAN && isType right_ object.BOOLEAN then
    evalBooleanInfixExpression op left_ right_ vm w
  else if negb (object.Type_eqb (object.Type' left_) (object.Type' right_)) then
    Fail (Error (TypeMismatch (object.Type' left_) op (object.Type' right_)))
  else
    Fail (Error (UnknownOperator (object.Type' left_) op (object.Type' right_))).

(** *** Indexing and prefix operators *)

(** [string(b)] for a byte [b]: the UTF-8 form of the code point of
    that number, one byte below [0x80] and two bytes from there on. *)
Definition stringOfByte (b : Ascii.ascii) : string :=
  let n := Z.of_N (Ascii.N_of_ascii b) in
  if n <? 128 then String.String b ""
  else
    String.String (Ascii.ascii_of_N (Z.to_N (Z.lor 192 (Z.shiftr n 6))))
      (String.String (Ascii.ascii_of_N (Z.to_N (Z.lor 128 (Z.land n 63)))) "").

(** [executeIndexExpression]. *)
Definition executeIndexExpression (left index_ : object.Object) (vm : VM) : Res VM :=
  if negb (isType left object.ARRAY) && negb (isType left object.STRING) then
    Fail (Error (IndexOperand (object.Type' left)))
  else if negb (isType index_ object.INTEGER) then
    Fail (Error (IndexNotInteger (object.Type' index_)))
  else
    match index_ with
    | object.Integer idx =>
        match left with
        | object.String _ =>
            let str := object.Inspect left in
            if (idx <? 0) || (idx >? Z.of_nat (String.length str)) then Ok (push vm.Null vm)
            else
              let* b := index (String.list_ascii_of_string str) idx in
              Ok (push (object.String (stringOfByte b)) vm)
        | object.Array elements =>
            let max := Z.of_nat (length elements) - 1 in
            if (idx <? 0) || (idx >? max) then Ok (push vm.Null vm)
            else
              let* o := index elements idx in
              Ok (push o vm)
        | _ => Fail (Panic InterfaceConversion)
        end
    | _ => Fail (Panic InterfaceConversion)
    end.

(** The comparisons [operand == True], [operand == False] and
    [operand == Null] of the [switch] of [executeBangOperator]: two
    interface values holding pointers are equal when the pointers are. *)
Definition isTrue (operand : object.Object) : bool :=
  match operand with
  | object.Boolean object.Global true => true
  | _ => false
  end.

Definition isFalse (operand : object.Object) : bool :=
  match operand with
  | object.Boolean object.Global false => true
  | _ => false
  end.

Definition isNull (operand : object.Object) : bool :=
  match operand with
  | object.Null object.Global => true
  | object.Null object.Heap => zero_size_pointers_equal
  | _ => false
  end.

(** [executeBangOperator]. *)
Definition executeBangOperator (vm : VM) : Res VM :=
  let* '(operand, vm) := pop vm in
  if isTrue operand then Ok (push vm.False vm)
  else if isFalse operand then Ok (push vm.True vm)
  else if isNull operand then Ok (push vm.True vm)
  else Ok (push vm.False vm).

(** [executeMinusOperator]. *)
Definition executeMinusOperator (vm : VM) : Res VM :=
  let* '(operand, vm) := pop vm in
  match operand with
  | object.Integer v => Ok (push (object.Integer (wrap64 (- v))) vm)
  | object.Float v => Ok (push (object.Float (PrimFloat.opp v)) vm)
  | _ => Fail (Error (UnsupportedNegation (object.Type' operand)))
  end.

(** [executeSquareRoot]. *)
Definition executeSquareRoot (vm : VM) : Res VM :=
  let* '(operand, vm) := pop vm in
  match operand with
  | object.Integer v => Ok (push (object.Float (PrimFloat.sqrt (float64_of_int64 v))) vm)
  | object.Float v => Ok (push (object.Float (PrimFloat.sqrt v)) vm)
  | _ => Fail (Error (UnsupportedSquareRoot (object.Type' operand)))
  end.

(** *** The interpreter *)

(** [binary.BigEndian.Uint16(vm.bytecode[ip+1 : ip+3])].  The slice
    expression panics when [ip+3] is past the end of the bytecode (a
    slice whose capacity is its length). *)
Definition readOperand (bytecode : list Z) (ip : Z) : Res Z :=
  if Z.of_nat (length bytecode) <? ip + 3 then Fail (Panic SliceBoundsOutOfRange)
  else
    let* b0 := index bytecode (ip + 1) in
    let* b1 := index bytecode (ip + 2) in
    Ok (Z.lor b1 (Z.shiftl b0 8)).

(** The loops of [OpArray] and [OpCall]: [n] values popped, the first
    one popped at the last place. *)
Fixpoint popN (n : nat) (vm : VM) (popped : list object.Object)
    : Res (list object.Object * VM) :=
  match n with
  | O => Ok (popped, vm)
  | S n' =>
      let* '(o, vm) := pop vm in
      popN n' vm (o :: popped)
  end.

(** How one turn of the loop of [Run] ends: the loop goes on at [ip],
    or [Run] returns [result]. *)
Inductive Next : Type :=
| Continue (ip : Z) (vm : VM) (w : environment.World)
| Returned (result : object.Object).

(** One turn of the loop of [Run], from the instruction at [ip]. *)
Definition step (obj : reflect.Record) (ip : Z) (vm : VM) (w : environment.World)
    : Res Next :=
  let* b := index (bytecode vm) ip in
  let op := code.of_byte b in
  let opLen := code.Length op in
  let* opArg := if 1 <? opLen then readOperand (bytecode vm) ip else Ok 0 in
  match op with
  | code.OpNop => Ok (Continue (ip + opLen) vm w)
  | code.OpPush => Ok (Continue (ip + opLen) (push (object.Integer opArg) vm) w)
  | code.OpConstant =>
      let* c := index (constants vm) opArg in
      Ok (Continue (ip + opLen) (push c vm) w)
  | code.OpLookup =>
      let* c := index (constants vm) opArg in
      let name := object.Inspect c in
      let* '(val, vm) := lookup obj name vm in
      Ok (Continue (ip + opLen) (push val vm) w)
  | code.OpSet =>
      let* '(name, vm) := pop vm in
      let* '(val, vm) := pop vm in
      let env := environment.Set_ (object.Inspect name) val (environment vm) in
      Ok (Continue (ip + opLen) (setEnvironment env vm) w)
  | code.OpAdd | code.OpSub | code.OpMul | code.OpDiv | code.OpMod | code.OpPower
  | code.OpLess | code.OpLessEqual | code.OpGreater | code.OpGreaterEqual
  | code.OpEqual | code.OpNotEqual | code.OpMatches | code.OpNotMatches
  | code.OpAnd | code.OpOr =>
      let* '(vm, w) := executeBinaryOperation op vm w in
      Ok (Continue (ip + opLen) vm w)
  | code.OpArray =>
      let* '(elements, vm) := popN (Z.to_nat opArg) vm [] in
      Ok (Continue (ip + opLen) (push (object.Array elements) vm) w)
  | code.OpArrayIndex =>
      let* '(index_, vm) := pop vm in
      let* '(left_, vm) := pop vm in
      let* vm := executeIndexExpression left_ index_ vm in
      Ok (Continue (ip + opLen) vm w)
  | code.OpBang =>
      let* vm := executeBangOperator vm in
      Ok (Continue (ip + opLen) vm w)
  | code.OpMinus =>
      let* vm := executeMinusOperator vm in
      Ok (Continue (ip + opLen) vm w)
  | code.OpRoot =>
      let* vm := executeSquareRoot vm in
      Ok (Continue (ip + opLen) vm w)
  | code.OpTrue => Ok (Continue (ip + opLen) (push vm.True vm) w)
  | code.OpFalse => Ok (Continue (ip + opLen) (push vm.False vm) w)
  | code.OpReturn =>
      let* '(result, _) := pop vm in
      Ok (Returned result)
  | code.OpJump => Ok (Continue (opArg - opLen + opLen) vm w)
  | code.OpJumpIfFalse =>
      let* '(condition, vm) := pop vm in
      let ip := if negb (object.True condition) then opArg - opLen else ip in
      Ok (Continue (ip + opLen) vm w)
  | code.OpCall =>
      let* '(fName, vm) := pop vm in
      let* '(fnArgs, vm) := popN (Z.to_nat opArg) vm [] in
      match environment.GetFunction (environment vm) (object.Inspect fName) with
      | None => Fail (Error (UnknownFunction (object.Inspect fName)))
      | Some out =>
          let* '(ret, w) := out fnArgs w in
          Ok (Continue (ip + opLen) (push ret vm) w)
      end
  | code.OpCodeSingleArg | code.OpFinal => Fail (Error (FakeInstruction op))
  | code.OpUnknown => Fail (Error (UnhandledOpcode op))
  end.

(** The loop [for ip < ln] of [Run].  The loop of the source need not
    end; [fuel] bounds the number of turns, and [None] says that the
    bound was reached. *)
Fixpoint loop (fuel : nat) (obj : reflect.Record) (ip : Z) (vm : VM)
    (w : environment.World) : option (Res object.Object) :=
  match fuel with
  | O => None
  | S fuel' =>
      if ip <? Z.of_nat (length (bytecode vm)) then
        match step obj ip vm w with
        | Ok (Continue ip' vm' w') => loop fuel' obj ip' vm' w'
        | Ok (Returned result) => Some (Ok result)
        | Fail f => Some (Fail f)
        end
      else Some (Fail (Error MissingReturn))
  end.

(** [Run]. *)
Definition Run (fuel : nat) (obj : reflect.Record) (vm : VM) (w : environment.World)
    : option (Res object.Object) :=
  if Z.of_nat (length (bytecode vm)) <? 1 then Some (Fail (Error EmptyProgram))
  else loop fuel obj 0 (setFields ∅ vm) w.

End Machine.

End vm.

(** ** A runtime to run the machine on examples *)

Module sample.

(** Patterns without metacharacters: such a pattern matches the strings
    that contain it.  A lone opening parenthesis does not compile. *)
Definition compile (reg : string) : string + string :=
  if String.eqb reg "(" then inr "error parsing regexp: missing closing ): `(`"
  else inl reg.

Definition matchString (r s : string) : bool :=
  match String.index 0 r s with
  | Some _ => true
  | None => false
  end.

(** The regular expressions are the ones above and ASCII text is
    handled as Go does.  Nothing below runs the other functions: they
    stand for text and numbers outside the examples. *)
Definition runtime : GoRuntime := {|
  Regexp := string;
  regexp_Compile := compile;
  Regexp_MatchString := matchString;
  strconv_ParseFloat := fun _ => None;
  strconv_ParseInt := fun _ => None;
  strconv_FormatFloat := fun _ => "float";
  strings_ToLower := fun s => s;
  strings_ToUpper := fun s => s;
  utf8_RuneCountInString := fun s => Z.of_nat (String.length s);
  strings_TrimFunc_IsSpace := fun s => s;
  strings_TrimRightFunc_IsSpace := fun s => s;
  math_Pow := fun x _ => x;
  int64_of_float64 := fun _ => 0;
  zero_size_pointers_equal := false
|}.

(** A numbering of the opcodes. *)
Definition opcodes : list code.Opcode :=
  [ code.OpNop; code.OpPush; code.OpConstant; code.OpLookup; code.OpSet;
    code.OpAdd; code.OpSub; code.OpMul; code.OpDiv; code.OpMod; code.OpPower;
    code.OpLess; code.OpLessEqual; code.OpGreater; code.OpGreaterEqual;
    code.OpEqual; code.OpNotEqual; code.OpMatches; code.OpNotMatches;
    code.OpAnd; code.OpOr; code.OpArray; code.OpArrayIndex; code.OpBang;
    code.OpMinus; code.OpRoot; code.OpTrue; code.OpFalse; code.OpReturn;
    code.OpJump; code.OpJumpIfFalse; code.OpCall; code.OpCodeSingleArg;
    code.OpFinal ].

Definition table : code.Table :=
  {| code.of_byte := fun b => nth (Z.to_nat b) opcodes code.OpUnknown |}.

(** The byte of an opcode in that numbering. *)
Fixpoint position (op : code.Opcode) (ops : list code.Opcode) (n : Z) : Z :=
  match ops with
  | [] => n
  | o :: rest =>
      if decide (@code.of_byte table n = op) then n else position op rest (n + 1)
  end.

Definition byte (op : code.Opcode) : Z := position op opcodes 0.

(** The state outside the machine before anything ran, and a machine
    for a program in the environment of the built-in functions. *)
Definition world : @environment.World runtime :=
  {| environment.regCache := ∅; environment.stdout := [] |}.

Definition machine (constants : list object.Object) (bytecode : list Z) : @vm.VM runtime :=
  vm.New constants bytecode environment.New.


(** Records: [{Count: 2, Author: "Steve", Flag: false}], and one with a
    slice whose element is of a type that reflection does not convert
    (a slice of slices, say). *)
Definition message : reflect.Record :=
  reflect.Struct [("Count", reflect.Int 2); ("Author", reflect.String "Steve");
                  ("Flag", reflect.Bool false)].


(** Two lines of text, the second one padded with spaces. *)
Definition twoLines : string :=
  "first" +:+ String.String environment.newline "  second  ".

(** Modelled from the spec: the compiler is not among the sources.  The
    script [return !Flag;] is "Identifier reference → LOOKUP name-idx",
    "Prefix ! → BANG", then RETURN, with the name in the constant pool. *)
Definition return_not_Flag : list Z * list object.Object :=
  ([byte code.OpLookup; 0; 0; byte code.OpBang; byte code.OpReturn],
   [object.String "Flag"]).

(** Modelled from the spec: the script [return 1 && 2;]; the literals
    by PUSH, "&& and || lower to AND / OR", then RETURN. *)
Definition return_1_and_2 : list Z :=
  [byte code.OpPush; 0; 1; byte code.OpPush; 0; 2; byte code.OpAnd; byte code.OpReturn].

(** Modelled from the spec: the script [return "abc"[3];]; "Index
    expression a[i] → push a, push i, emit ARRAY_INDEX", then RETURN,
    with the string in the constant pool. *)
Definition return_abc_at_3 : list Z * list object.Object :=
  ([byte code.OpConstant; 0; 0; byte code.OpPush; 0; 3; byte code.OpArrayIndex;
    byte code.OpReturn],
   [object.String "abc"]).

End sample.

(** ** Notions used by the statements *)

Section Notions.
Context `{GoRuntime} `{code.Table}.

(** The pairs of operands that the first five arms of the dispatch of
    [executeBinaryOperation] take: two integers, two floats, a float
    and an integer either way, two strings. *)
Definition typedArm (left right : object.Object) : bool :=
  (vm.isType left object.INTEGER && vm.isType right object.INTEGER)
  || (vm.isType left object.FLOAT && vm.isType right object.FLOAT)
  || (vm.isType left object.FLOAT && vm.isType right object.INTEGER)
  || (vm.isType left object.INTEGER && vm.isType right object.FLOAT)
  || (vm.isType left object.STRING && vm.isType right object.STRING).

(** The machine whose stack is [s], everything else as in [vm]. *)
Definition onStack (s : list object.Object) (vm : vm.VM) : vm.VM := vm.setStack s vm.

(** One of the two shared objects [True] and [False]. *)
Definition canonical (o : object.Object) : Prop := o = vm.True \/ o = vm.False.

(** The truthiness of a value as a canonical boolean. *)
Definition truthiness (o : object.Object) : object.Object :=
  vm.nativeBoolToBooleanObject (object.True o).

(** The opcodes that the loop of [Run] hands to
    [executeBinaryOperation]. *)
Definition binaryOp (op : code.Opcode) : bool :=
  match op with
  | code.OpAdd | code.OpSub | code.OpMul | code.OpDiv | code.OpMod | code.OpPower
  | code.OpLess | code.OpLessEqual | code.OpGreater | code.OpGreaterEqual
  | code.OpEqual | code.OpNotEqual | code.OpMatches | code.OpNotMatches
  | code.OpAnd | code.OpOr => true
  | _ => false
  end.

(** The operand of an arithmetic operator as a float: a float as it
    is, an integer promoted. *)
Definition promoted (o : object.Object) : option float :=
  match o with
  | object.Float f => Some f
  | object.Integer i => Some (float64_of_int64 i)
  | _ => None
  end.

(** Modelled from the spec: the compiler is not among the sources.  The
    script [return 10 / 0;] compiles to the two literals, the opcode of
    the operator and RETURN: "Integer literals in the range [0, 65535]
    may alternatively be emitted as PUSH imm", "Binary operators lower
    to the corresponding arithmetic/comparison opcode", "return expr; →
    emit expr, then RETURN".  The bytes of the three opcodes are
    arguments; an operand is two bytes, the high one first. *)
Definition return_10_div_0 (bPush bDiv bReturn : Z) : list Z :=
  [bPush; 0; 10; bPush; 0; 0; bDiv; bReturn].

(** The same script with its literals in the constant pool, pushed by
    CONSTANT: the bytecode and the pool. *)
Definition return_10_div_0_pool (bConstant bDiv bReturn : Z) : list Z * list object.Object :=
  ([bConstant; 0; 0; bConstant; 0; 1; bDiv; bReturn],
   [object.Integer 10; object.Integer 0]).



(** The invariant of [regCache]: what it holds under a pattern is what
    [regexp.Compile] makes of the pattern.  [fnMatch] is the only code
    that writes the cache. *)
Definition coherent (w : environment.World) : Prop :=
  forall reg r, environment.regCache w !! reg = Some r -> regexp_Compile reg = inl r.

(** The opcodes whose result is a boolean: the comparisons, the two
    logical operators and the two regular-expression operators. *)
Definition pushesBoolean (op : code.Opcode) : bool :=
  match op with
  | code.OpLess | code.OpLessEqual | code.OpGreater | code.OpGreaterEqual
  | code.OpEqual | code.OpNotEqual
  | code.OpAnd | code.OpOr | code.OpMatches | code.OpNotMatches => true
  | _ => false
  end.

(** The six comparisons among them. *)
Definition comparison (op : code.Opcode) : bool :=
  match op with
  | code.OpLess | code.OpLessEqual | code.OpGreater | code.OpGreaterEqual
  | code.OpEqual | code.OpNotEqual => true
  | _ => false
  end.

(** Two states of a machine running the same program. *)
Definition sameProgram (vm vm' : vm.VM) : Prop :=
  vm.bytecode vm' = vm.bytecode vm /\ vm.constants vm' = vm.constants vm.

(** The values of an [int64]. *)
Definition inInt64 (z : Z) : Prop := - 2 ^ 63 <= z < 2 ^ 63.

(** The result in the integers of the four arithmetic operators that
    [evalIntegerInfixExpression] computes on machine integers; none for
    a division by zero. *)
Definition arith (op : code.Opcode) (l r : Z) : option Z :=
  match op with
  | code.OpAdd => Some (l + r)
  | code.OpSub => Some (l - r)
  | code.OpMul => Some (l * r)
  | code.OpDiv => if r =? 0 then None else Some (Z.quot l r)
  | _ => None
  end.

(** The opcodes that have a case in the [switch] of
    [evalStringInfixExpression], and those that have one in the
    [switch] of the three functions on floats. *)
Definition stringOp (op : code.Opcode) : bool :=
  match op with
  | code.OpEqual | code.OpNotEqual | code.OpGreaterEqual | code.OpGreater
  | code.OpLessEqual | code.OpLess | code.OpMatches | code.OpNotMatches
  | code.OpAdd => true
  | _ => false
  end.

Definition floatOp (op : code.Opcode) : bool :=
  match op with
  | code.OpAdd | code.OpSub | code.OpMul | code.OpDiv | code.OpMod | code.OpPower
  | code.OpLess | code.OpLessEqual | code.OpGreater | code.OpGreaterEqual
  | code.OpEqual | code.OpNotEqual => true
  | _ => false
  end.


(** Two states of a machine with the same environment and field cache. *)
Definition sameRest (vm vm' : vm.VM) : Prop :=
  vm.environment vm' = vm.environment vm /\ vm.fields vm' = vm.fields vm.

End Notions.

(** ** Proof automation *)

(** Inversion of a run of fallible steps that ended well: every step
    ended well, and the branches taken are those that can. *)
Ltac invert_ok :=
  repeat match goal with
    | H : Fail _ = Ok _ |- _ => discriminate H
    | H : bind ?m _ = Ok _ |- _ => destruct m eqn:?; cbn [bind] in H; cbn beta in H
    | H : (let '(_, _) := ?p in _) = Ok _ |- _ => destruct p
    | H : (if ?x then _ else _) = Ok _ |- _ => destruct x eqn:?
    | H : (match ?x with _ => _ end) = Ok _ |- _ => destruct x eqn:?
    | H : Ok _ = Ok _ |- _ => first [discriminate H | injection H; clear H; intros; subst]
    end.

(** ** Properties *)

Section Properties.
Context `{GoRuntime} `{code.Table}.

(** *** Logical operators *)

(** Outside the typed arms, [AND] and [OR] are computed from the
    truthiness of the operands and push a canonical boolean. *)
Lemma and_outside_typed_arms (left right : object.Object) (s : list object.Object)
    (vm : vm.VM) (w : environment.World) :
  typedArm left right = false ->
  vm.executeBinaryOperation code.OpAnd (onStack (right :: left :: s) vm) w
  = Ok (onStack ((if object.True left then truthiness right else vm.False) :: s) vm, w).
Proof.
  intros Ht. unfold truthiness.
  destruct (object.True left) eqn:El, (object.True right) eqn:Er;
    destruct left, right; try discriminate Ht;
    cbn in *; try discriminate; rewrite ?El, ?Er; reflexivity.
Qed.

Lemma or_outside_typed_arms (left right : object.Object) (s : list object.Object)
    (vm : vm.VM) (w : environment.World) :
  typedArm left right = false ->
  vm.executeBinaryOperation code.OpOr (onStack (right :: left :: s) vm) w
  = Ok (onStack ((if object.True left then vm.True else truthiness right) :: s) vm, w).
Proof.
  intros Ht. unfold truthiness.
  destruct (object.True left) eqn:El, (object.True right) eqn:Er;
    destruct left, right; try discriminate Ht;
    cbn in *; try discriminate; rewrite ?El, ?Er; reflexivity.
Qed.

(** C1.  The claim asks [AND] and [OR] to work on the truthiness of
    operands of any types.  The code does so only outside the typed
    arms of the dispatch: for two integers, two floats, a float and an
    integer, or two strings, the typed arm runs first and, having no
    case for [AND] or [OR], fails with the error "unknown operator";
    nothing is pushed. *)
Theorem and_or_in_typed_arm_is_unknown_operator
    (op : code.Opcode) (left right : object.Object) (s : list object.Object)
    (vm : vm.VM) (w : environment.World) :
  op = code.OpAnd \/ op = code.OpOr ->
  typedArm left right = true ->
  vm.executeBinaryOperation op (onStack (right :: left :: s) vm) w
  = Fail (Error (UnknownOperator (object.Type' left) op (object.Type' right))).
Proof.
  intros [-> | ->] Ht; destruct left, right; try discriminate Ht; reflexivity.
Qed.

(** *** Indexing *)

Lemma length_list_ascii_of_string (v : string) :
  length (String.list_ascii_of_string v) = String.length v.
Proof. induction v as [|c v IH]; cbn; [reflexivity | now rewrite IH]. Qed.

Lemma index_out_of_range {A : Type} (l : list A) (i : Z) :
  Z.of_nat (length l) <= i -> index l i = Fail (Panic IndexOutOfRange).
Proof.
  intros Hi. unfold index.
  replace (Z.of_nat (length l) <=? i) with true by (symmetry; now apply Z.leb_le).
  now rewrite orb_true_r.
Qed.

Lemma index_in_range {A : Type} (l : list A) (i : Z) :
  0 <= i < Z.of_nat (length l) -> exists x, l !! Z.to_nat i = Some x /\ index l i = Ok x.
Proof.
  intros [Hlo Hhi]. unfold index.
  replace (i <? 0) with false by (symmetry; now apply Z.ltb_ge).
  replace (Z.of_nat (length l) <=? i) with false by (symmetry; apply Z.leb_gt; lia).
  cbn. destruct (l !! Z.to_nat i) as [x|] eqn:E.
  - now exists x.
  - apply lookup_ge_None in E. lia.
Qed.

(** An array indexed below zero or at its length or beyond gives
    [Null] and no error; within its bounds it gives the element. *)
Lemma index_array_out_of_range (elements s : list object.Object) (idx : Z) (vm : vm.VM) :
  idx < 0 \/ Z.of_nat (length elements) <= idx ->
  vm.executeIndexExpression (object.Array elements) (object.Integer idx) (onStack s vm)
  = Ok (onStack (vm.Null :: s) vm).
Proof.
  intros Hidx. unfold vm.executeIndexExpression. cbn.
  destruct (idx <? 0) eqn:Elo; [reflexivity|]. apply Z.ltb_ge in Elo.
  replace (idx >? Z.of_nat (length elements) - 1) with true; [reflexivity|].
  symmetry. rewrite Z.gtb_ltb. apply Z.ltb_lt. lia.
Qed.

Lemma index_array_in_range (elements s : list object.Object) (idx : Z) (vm : vm.VM) :
  0 <= idx < Z.of_nat (length elements) ->
  exists o, elements !! Z.to_nat idx = Some o /\
    vm.executeIndexExpression (object.Array elements) (object.Integer idx) (onStack s vm)
    = Ok (onStack (o :: s) vm).
Proof.
  intros Hidx. destruct (index_in_range elements idx Hidx) as (o & Ho & Hix).
  exists o. split; [exact Ho|].
  unfold vm.executeIndexExpression. cbn.
  replace (idx <? 0) with false by (symmetry; apply Z.ltb_ge; lia).
  replace (idx >? Z.of_nat (length elements) - 1) with false
    by (symmetry; rewrite Z.gtb_ltb; apply Z.ltb_ge; lia).
  cbn. now rewrite Hix.
Qed.

(** A string indexed below zero or beyond its length gives [Null]. *)
Lemma index_string_out_of_range (v : string) (s : list object.Object) (idx : Z) (vm : vm.VM) :
  idx < 0 \/ Z.of_nat (String.length v) < idx ->
  vm.executeIndexExpression (object.String v) (object.Integer idx) (onStack s vm)
  = Ok (onStack (vm.Null :: s) vm).
Proof.
  intros Hidx. unfold vm.executeIndexExpression. cbn.
  destruct (idx <? 0) eqn:Elo; [reflexivity|]. apply Z.ltb_ge in Elo.
  replace (idx >? Z.of_nat (String.length v)) with true; [reflexivity|].
  symmetry. rewrite Z.gtb_ltb. apply Z.ltb_lt. lia.
Qed.



(** C2.  The claim asks that a string indexed at exactly its length
    gives [Null].  The bounds check of the string arm is
    [idx < 0 || int(idx) > len(str)], so the index [len(str)] passes it
    and [str[idx]] panics with "index out of range"; nothing is
    pushed.  (The array arm compares with [len - 1] and gives [Null].) *)
Theorem index_string_at_its_length_panics
    (v : string) (vm : vm.VM) :
  vm.executeIndexExpression (object.String v)
    (object.Integer (Z.of_nat (String.length v))) vm
  = Fail (Panic IndexOutOfRange).
Proof.
  unfold vm.executeIndexExpression. cbn.
  replace (Z.of_nat (String.length v) <? 0) with false by (symmetry; apply Z.ltb_ge; lia).
  replace (Z.of_nat (String.length v) >? Z.of_nat (String.length v)) with false
    by (symmetry; rewrite Z.gtb_ltb; apply Z.ltb_ge; lia).
  cbn. rewrite index_out_of_range; [reflexivity|].
  rewrite length_list_ascii_of_string. lia.
Qed.

(** *** Negation *)

(** On the three shared objects and on numbers, strings and arrays the
    [switch] of [executeBangOperator] is the table of the spec. *)
Lemma bang_of_shared_objects (s : list object.Object) (vm : vm.VM) :
  vm.executeBangOperator (onStack (vm.True :: s) vm) = Ok (onStack (vm.False :: s) vm)
  /\ vm.executeBangOperator (onStack (vm.False :: s) vm) = Ok (onStack (vm.True :: s) vm)
  /\ vm.executeBangOperator (onStack (vm.Null :: s) vm) = Ok (onStack (vm.True :: s) vm).
Proof. repeat split. Qed.

Lemma bang_of_other_values (o : object.Object) (s : list object.Object) (vm : vm.VM) :
  object.Type' o <> object.BOOLEAN -> object.Type' o <> object.NULL ->
  vm.executeBangOperator (onStack (o :: s) vm) = Ok (onStack (vm.False :: s) vm).
Proof. intros Hb Hn. destruct o; cbn in *; try congruence; reflexivity. Qed.

(** C3.  The claim asks that [BANG] of every [Boolean(false)] be true.
    The [switch] of [executeBangOperator] compares pointers with the
    shared objects: a boolean that reflection made of a field of the
    record ([&object.Boolean{Value: field.Bool()}]) is none of them and
    falls to the [default] arm, so that [False] is pushed whatever its
    value, for [false] as for [true]. *)
Theorem bang_of_reflected_false_is_false
    (s : list object.Object) (vm : vm.VM) :
  (forall value, vm.convertField (reflect.Bool value)
                 = Ok (object.Boolean object.Heap value))
  /\ (forall value, vm.executeBangOperator
                      (onStack (object.Boolean object.Heap value :: s) vm)
                    = Ok (onStack (vm.False :: s) vm))
  /\ vm.executeBangOperator (onStack (object.Boolean object.Heap false :: s) vm)
     = Ok (onStack (vm.False :: s) vm).
Proof.
  split; [reflexivity|]. split; [|reflexivity].
  intros value. now destruct value.
Qed.

(** *** Division *)

Lemma loop_step_fails (fuel : nat) (obj : reflect.Record) (ip : Z) (vm : vm.VM)
    (w : environment.World) (f : Fault) :
  ip < Z.of_nat (length (vm.bytecode vm)) ->
  vm.step obj ip vm w = Fail f ->
  vm.loop (S fuel) obj ip vm w = Some (Fail f).
Proof.
  intros Hip Hstep. cbn [vm.loop].
  replace (ip <? Z.of_nat (length (vm.bytecode vm))) with true
    by (symmetry; now apply Z.ltb_lt).
  now rewrite Hstep.
Qed.

Lemma loop_continue (fuel : nat) (obj : reflect.Record) (ip ip' : Z) (vm vm' : vm.VM)
    (w w' : environment.World) :
  ip < Z.of_nat (length (vm.bytecode vm)) ->
  vm.step obj ip vm w = Ok (vm.Continue ip' vm' w') ->
  vm.loop (S fuel) obj ip vm w = vm.loop fuel obj ip' vm' w'.
Proof.
  intros Hip Hstep. cbn [vm.loop].
  replace (ip <? Z.of_nat (length (vm.bytecode vm))) with true
    by (symmetry; now apply Z.ltb_lt).
  now rewrite Hstep.
Qed.

Lemma step_push (obj : reflect.Record) (ip b n : Z) (vm : vm.VM) (w : environment.World) :
  index (vm.bytecode vm) ip = Ok b ->
  code.of_byte b = code.OpPush ->
  vm.readOperand (vm.bytecode vm) ip = Ok n ->
  vm.step obj ip vm w = Ok (vm.Continue (ip + 3) (vm.push (object.Integer n) vm) w).
Proof.
  intros Hb Hop Harg. unfold vm.step. rewrite Hb. cbn [bind]. rewrite Hop.
  cbn [code.Length]. change (1 <? 3) with true. cbv iota. now rewrite Harg.
Qed.

Lemma step_constant (obj : reflect.Record) (ip b n : Z) (c : object.Object) (vm : vm.VM)
    (w : environment.World) :
  index (vm.bytecode vm) ip = Ok b ->
  code.of_byte b = code.OpConstant ->
  vm.readOperand (vm.bytecode vm) ip = Ok n ->
  index (vm.constants vm) n = Ok c ->
  vm.step obj ip vm w = Ok (vm.Continue (ip + 3) (vm.push c vm) w).
Proof.
  intros Hb Hop Harg Hc. unfold vm.step. rewrite Hb. cbn [bind]. rewrite Hop.
  cbn [code.Length]. change (1 <? 3) with true. cbv iota. rewrite Harg. cbn [bind].
  now rewrite Hc.
Qed.

Lemma step_binary (obj : reflect.Record) (ip b : Z) (vm : vm.VM)
    (w : environment.World) (op : code.Opcode) :
  index (vm.bytecode vm) ip = Ok b ->
  code.of_byte b = op ->
  binaryOp op = true ->
  vm.step obj ip vm w
  = (let* '(vm, w) := vm.executeBinaryOperation op vm w in
     Ok (vm.Continue (ip + 1) vm w)).
Proof.
  intros Hb Hop Hbin. unfold vm.step. rewrite Hb. cbn [bind]. rewrite Hop.
  destruct op; try discriminate Hbin; reflexivity.
Qed.

(** C4.  Division by zero is the error [DivisionByZero] and pushes
    nothing, for two integers and, when the right operand promoted to a
    float equals zero, for operands of which one at least is a float;
    the error ends the run.  A divisor other than zero gives an
    [Integer] for two integers and a [Float] otherwise.  The script
    [return 10 / 0;] fails with [DivisionByZero]. *)
Theorem division_by_zero_is_an_error :
  (forall (l : Z) s vm w,
      vm.executeBinaryOperation code.OpDiv
        (onStack (object.Integer 0 :: object.Integer l :: s) vm) w
      = Fail (Error DivisionByZero))
  /\ (forall left right lf rf s vm w,
      object.Type' left = object.FLOAT \/ object.Type' right = object.FLOAT ->
      promoted left = Some lf -> promoted right = Some rf ->
      PrimFloat.eqb rf 0%float = true ->
      vm.executeBinaryOperation code.OpDiv (onStack (right :: left :: s) vm) w
      = Fail (Error DivisionByZero))
  /\ (forall (l r : Z) s vm w,
      r <> 0 ->
      vm.executeBinaryOperation code.OpDiv
        (onStack (object.Integer r :: object.Integer l :: s) vm) w
      = Ok (onStack (object.Integer (wrap64 (Z.quot l r)) :: s) vm, w))
  /\ (forall left right lf rf s vm w,
      object.Type' left = object.FLOAT \/ object.Type' right = object.FLOAT ->
      promoted left = Some lf -> promoted right = Some rf ->
      PrimFloat.eqb rf 0%float = false ->
      vm.executeBinaryOperation code.OpDiv (onStack (right :: left :: s) vm) w
      = Ok (onStack (object.Float (PrimFloat.div lf rf) :: s) vm, w))
  /\ (forall fuel obj ip b vm w f,
      index (vm.bytecode vm) ip = Ok b -> code.of_byte b = code.OpDiv ->
      vm.executeBinaryOperation code.OpDiv vm w = Fail f ->
      vm.loop (S fuel) obj ip vm w = Some (Fail f))
  /\ (forall fuel obj env w bPush bDiv bReturn,
      code.of_byte bPush = code.OpPush -> code.of_byte bDiv = code.OpDiv ->
      code.of_byte bReturn = code.OpReturn ->
      vm.Run (S (S (S fuel))) obj (vm.New [] (return_10_div_0 bPush bDiv bReturn) env) w
      = Some (Fail (Error DivisionByZero)))
  /\ (forall fuel obj env w bConstant bDiv bReturn,
      code.of_byte bConstant = code.OpConstant -> code.of_byte bDiv = code.OpDiv ->
      code.of_byte bReturn = code.OpReturn ->
      let '(bytecode, constants) := return_10_div_0_pool bConstant bDiv bReturn in
      vm.Run (S (S (S fuel))) obj (vm.New constants bytecode env) w
      = Some (Fail (Error DivisionByZero))).
Proof.
  repeat apply conj.
  - reflexivity.
  - intros left right lf rf s vm w Hf Hl Hr Hz.
    destruct left, right; cbn in Hl, Hr; try discriminate;
      destruct Hf as [Hf | Hf]; try discriminate Hf;
      injection Hl as <-; injection Hr as <-; cbn; now rewrite Hz.
  - intros l r s vm w Hr. cbn.
    now replace (r =? 0) with false by (symmetry; now apply Z.eqb_neq).
  - intros left right lf rf s vm w Hf Hl Hr Hz.
    destruct left, right; cbn in Hl, Hr; try discriminate;
      destruct Hf as [Hf | Hf]; try discriminate Hf;
      injection Hl as <-; injection Hr as <-; cbn; now rewrite Hz.
  - intros fuel obj ip b vm w f Hb Hop Hexec.
    apply loop_step_fails.
    + unfold index in Hb.
      destruct (ip <? 0) eqn:Elo; [discriminate|].
      destruct (Z.of_nat (length (vm.bytecode vm)) <=? ip) eqn:Ehi; [discriminate|].
      now apply Z.leb_gt.
    + rewrite (step_binary obj ip b vm w code.OpDiv Hb Hop eq_refl).
      now rewrite Hexec.
  - intros fuel obj env w bPush bDiv bReturn HPush HDiv HReturn.
    unfold vm.Run, return_10_div_0. change (Z.of_nat _ <? 1) with false. cbv iota.
    erewrite loop_continue;
      [ | reflexivity | now eapply step_push; [reflexivity | exact HPush | reflexivity] ].
    erewrite loop_continue;
      [ | reflexivity | now eapply step_push; [reflexivity | exact HPush | reflexivity] ].
    apply loop_step_fails; [reflexivity|].
    now erewrite step_binary; [ | reflexivity | exact HDiv | reflexivity ].
  - intros fuel obj env w bConstant bDiv bReturn HConstant HDiv HReturn.
    unfold vm.Run, return_10_div_0_pool. change (Z.of_nat _ <? 1) with false. cbv iota.
    erewrite loop_continue;
      [ | reflexivity
        | now eapply step_constant; [reflexivity | exact HConstant | reflexivity | reflexivity] ].
    erewrite loop_continue;
      [ | reflexivity
        | now eapply step_constant; [reflexivity | exact HConstant | reflexivity | reflexivity] ].
    apply loop_step_fails; [reflexivity|].
    now erewrite step_binary; [ | reflexivity | exact HDiv | reflexivity ].
Qed.

(** *** Name resolution *)

Lemma bind_Ok {A B : Type} (m : Res A) (k : A -> Res B) (b : B) :
  bind m k = Ok b -> exists a, m = Ok a /\ k a = Ok b.
Proof. destruct m as [a|f]; cbn; [eauto | discriminate]. Qed.







(** *** Built-in functions *)

(** [strings.Split] cuts at the separators and nowhere else: joining
    the pieces with the separator gives the string back, and no piece
    holds a separator. *)
Lemma Split_not_nil (s : string) (sep : Ascii.ascii) : strings.Split s sep <> [].
Proof. induction s as [|c s IH]; cbn; [easy|]. destruct (Ascii.eqb c sep); [easy|].
  destruct (strings.Split s sep); easy. Qed.

Lemma Join_cons (a b : string) (rest : list string) (sep : string) :
  object.Join (a :: b :: rest) sep = a +:+ sep +:+ object.Join (b :: rest) sep.
Proof. reflexivity. Qed.

Lemma Join_Split (s : string) (sep : Ascii.ascii) :
  object.Join (strings.Split s sep) (String.String sep "") = s.
Proof.
  induction s as [|c s IH]; [reflexivity|]. cbn [strings.Split].
  pose proof (Split_not_nil s sep) as Hne.
  destruct (strings.Split s sep) as [|first others]; [contradiction|].
  destruct (Ascii.eqb c sep) eqn:E.
  - apply Ascii.eqb_eq in E as ->. now rewrite Join_cons, IH.
  - destruct others as [|second others].
    + cbn in IH |- *. now rewrite IH.
    + rewrite Join_cons in IH |- *. now rewrite <- IH.
Qed.

Lemma matchLines_true (r : Regexp) (lines : list string) :
  environment.matchLines r lines = true
  <-> exists line, line ∈ lines /\ Regexp_MatchString r (strings.TrimSpace line) = true.
Proof.
  induction lines as [|s rest IH]; cbn.
  - split; [discriminate|]. intros (line & Hin & _). inversion Hin.
  - destruct (Regexp_MatchString r (strings.TrimSpace s)) eqn:E.
    + split; [|reflexivity]. intros _. exists s. split; [left|exact E].
    + rewrite IH. split.
      * intros (line & Hin & Hm). exists line. split; [now right|exact Hm].
      * intros (line & Hin & Hm). apply elem_of_cons in Hin as [->|Hin]; [congruence|eauto].
Qed.

Lemma coherent_insert (w : environment.World) (reg : string) (r : Regexp) :
  coherent w -> regexp_Compile reg = inl r ->
  coherent (environment.setRegCache (<[reg := r]> (environment.regCache w)) w).
Proof.
  intros Hw Hr reg' r'. cbn. destruct (decide (reg = reg')) as [<-|Hne].
  - rewrite lookup_insert_eq. now intros [= <-].
  - rewrite lookup_insert_ne by exact Hne. apply Hw.
Qed.

(** C6.  [match(h, p)] answers with a boolean that is true exactly when
    one of the lines of [h.inspect()], cut at the newlines and trimmed,
    matches [p.inspect()] compiled as a regular expression, and false
    when the pattern does not compile.  The cache of compiled patterns
    does not change the answer and keeps its invariant. *)
Theorem match_tests_the_trimmed_lines
    (h p : object.Object) (w : environment.World) :
  coherent w ->
  exists (v : bool) (w' : environment.World),
    environment.fnMatch [h; p] w = Ok (object.Boolean object.Heap v, w')
    /\ coherent w'
    /\ (forall r, regexp_Compile (object.Inspect p) = inl r ->
          (v = true <->
           exists line, line ∈ strings.Split (object.Inspect h) environment.newline
                        /\ Regexp_MatchString r (strings.TrimSpace line) = true))
    /\ (forall err, regexp_Compile (object.Inspect p) = inr err -> v = false).
Proof.
  intros Hw. unfold environment.fnMatch. cbn [environment.len length].
  change (negb (Z.of_nat 2 =? 2)) with false. cbv iota.
  change (index [h; p] 0) with (Ok h). change (index [h; p] 1) with (Ok p).
  cbn [bind].
  destruct (environment.regCache w !! object.Inspect p) as [r|] eqn:Ecache.
  - pose proof (Hw _ _ Ecache) as Hr.
    eexists _, w. split; [reflexivity|]. split; [exact Hw|]. split.
    + intros r' Hr'. rewrite Hr in Hr'. injection Hr' as <-. apply matchLines_true.
    + intros err Herr. congruence.
  - destruct (regexp_Compile (object.Inspect p)) as [r|err] eqn:Er.
    + eexists _, _. split; [reflexivity|]. split; [now apply coherent_insert|]. split.
      * intros r' [= <-]. apply matchLines_true.
      * intros err [=].
    + eexists _, _. split; [reflexivity|]. split; [exact Hw|]. split.
      * intros r [=].
      * reflexivity.
Qed.

Lemma len_not (args : list object.Object) (n : Z) :
  environment.len args <> n -> negb (environment.len args =? n) = true.
Proof. intros Hn. apply negb_true_iff. now apply Z.eqb_neq. Qed.

(** C10.  [float], [int], [len], [lower], [upper], [string] and [type]
    return [Null] for any number of arguments other than one, and
    [match] returns [Boolean(false)] for any number other than two;
    [trim] and [print] take any number of arguments, and [trim] of no
    argument is the empty string.  None of them ends in an error. *)
Theorem builtins_check_their_argument_count
    (args : list object.Object) (w : environment.World) :
  (environment.len args <> 1 ->
     environment.fnFloat args = Ok (object.Null object.Heap)
     /\ environment.fnInt args = Ok (object.Null object.Heap)
     /\ environment.fnLen args = Ok (object.Null object.Heap)
     /\ environment.fnLower args = Ok (object.Null object.Heap)
     /\ environment.fnUpper args = Ok (object.Null object.Heap)
     /\ environment.fnString args = Ok (object.Null object.Heap)
     /\ environment.fnType args = Ok (object.Null object.Heap))
  /\ (environment.len args <> 2 ->
       environment.fnMatch args w = Ok (object.Boolean object.Heap false, w))
  /\ (exists v, environment.fnTrim args = Ok (object.String v))
  /\ (exists w', environment.fnPrint args w = Ok (object.Integer 0, w'))
  /\ environment.fnTrim [] = Ok (object.String "")
  /\ environment.fnPrint [] w = Ok (object.Integer 0, w).
Proof.
  repeat apply conj.
  - intros Hn. apply len_not in Hn.
    unfold environment.fnFloat, environment.fnInt, environment.fnLen, environment.fnLower,
      environment.fnUpper, environment.fnString, environment.fnType.
    rewrite Hn. repeat split.
  - intros Hn. apply len_not in Hn. unfold environment.fnMatch. now rewrite Hn.
  - eexists. reflexivity.
  - eexists. reflexivity.
  - reflexivity.
  - reflexivity.
Qed.

(** *** The run *)


Lemma step_return (obj : reflect.Record) (ip b : Z) (vm : vm.VM) (w : environment.World)
    (result : object.Object) (s : list object.Object) :
  index (vm.bytecode vm) ip = Ok b ->
  code.of_byte b = code.OpReturn ->
  vm.stack vm = result :: s ->
  vm.step obj ip vm w = Ok (vm.Returned result).
Proof.
  intros Hb Hop Hs. unfold vm.step. rewrite Hb. cbn [bind]. rewrite Hop.
  cbn [code.Length]. change (1 <? 1) with false. cbv iota. cbn [bind].
  unfold vm.pop. now rewrite Hs.
Qed.

Lemma index_Ok_lt {A : Type} (l : list A) (i : Z) (x : A) :
  index l i = Ok x -> 0 <= i < Z.of_nat (length l).
Proof.
  unfold index. intros Hx.
  destruct (i <? 0) eqn:Elo; [discriminate|].
  destruct (Z.of_nat (length l) <=? i) eqn:Ehi; [discriminate|].
  apply Z.ltb_ge in Elo. apply Z.leb_gt in Ehi. lia.
Qed.

(** The program does not change while it runs. *)
Lemma sameProgram_refl (vm : vm.VM) : sameProgram vm vm.
Proof. now split. Qed.

Lemma sameProgram_trans (vm1 vm2 vm3 : vm.VM) :
  sameProgram vm1 vm2 -> sameProgram vm2 vm3 -> sameProgram vm1 vm3.
Proof. intros [] []. split; congruence. Qed.

Lemma pop_sameProgram (vm vm' : vm.VM) (o : object.Object) :
  vm.pop vm = Ok (o, vm') -> sameProgram vm vm'.
Proof.
  unfold vm.pop. destruct (vm.stack vm); [discriminate|]. cbn.
  intros [= <- <-]. now split.
Qed.

Lemma popN_sameProgram (n : nat) (vm vm' : vm.VM) (acc popped : list object.Object) :
  vm.popN n vm acc = Ok (popped, vm') -> sameProgram vm vm'.
Proof.
  revert vm acc. induction n as [|n IH]; intros vm acc Hpop; cbn in Hpop.
  - injection Hpop as <- <-. apply sameProgram_refl.
  - apply bind_Ok in Hpop as ([o vm1] & Hpop1 & Hrest).
    eapply sameProgram_trans; [exact (pop_sameProgram _ _ _ Hpop1) | exact (IH _ _ Hrest)].
Qed.

Lemma inspectObject_sameProgram (obj : reflect.Record) (vm vm' : vm.VM) :
  vm.inspectObject obj vm = Ok vm' -> sameProgram vm vm'.
Proof.
  destruct obj; cbn; intros Hins; invert_ok; now split.
Qed.

Lemma lookup_sameProgram (obj : reflect.Record) (name : string) (vm vm' : vm.VM)
    (o : object.Object) :
  vm.lookup obj name vm = Ok (o, vm') -> sameProgram vm vm'.
Proof.
  unfold vm.lookup. destruct (environment.Get _ _).
  - intros [= <- <-]. apply sameProgram_refl.
  - intros Hl. apply bind_Ok in Hl as (vm1 & Hvm1 & Hl).
    assert (sameProgram vm vm1) as Hsame.
    { destruct (size (vm.fields vm) =? 0)%nat.
      - now apply inspectObject_sameProgram in Hvm1.
      - injection Hvm1 as <-. apply sameProgram_refl. }
    destruct (vm.fields vm1 !! _); now injection Hl as <- <-.
Qed.

Lemma executeBinaryOperation_sameProgram (op : code.Opcode) (vm vm' : vm.VM)
    (w w' : environment.World) :
  vm.executeBinaryOperation op vm w = Ok (vm', w') -> sameProgram vm vm'.
Proof.
  intros Hexec. unfold vm.executeBinaryOperation, vm.pop in Hexec.
  destruct (vm.stack vm) as [|right [|left s]] eqn:Es; try discriminate Hexec.
  cbn in Hexec.
  destruct left, right; destruct op; cbn in Hexec;
    unfold vm.callMatch in Hexec; invert_ok; now split.
Qed.

Lemma executeIndexExpression_sameProgram (left index_ : object.Object) (vm vm' : vm.VM) :
  vm.executeIndexExpression left index_ vm = Ok vm' -> sameProgram vm vm'.
Proof.
  unfold vm.executeIndexExpression. intros Hix.
  destruct left, index_; cbn in Hix; invert_ok; now split.
Qed.

Lemma prefix_sameProgram (vm vm' : vm.VM) :
  vm.executeBangOperator vm = Ok vm' \/ vm.executeMinusOperator vm = Ok vm'
  \/ vm.executeSquareRoot vm = Ok vm' ->
  sameProgram vm vm'.
Proof.
  unfold vm.executeBangOperator, vm.executeMinusOperator, vm.executeSquareRoot, vm.pop.
  destruct (vm.stack vm) as [|o s]; cbn; [intros [|[|]]; discriminate|].
  intros [Hx | [Hx | Hx]]; invert_ok; now split.
Qed.

Lemma step_sameProgram (obj : reflect.Record) (ip ip' : Z) (vm vm' : vm.VM)
    (w w' : environment.World) :
  vm.step obj ip vm w = Ok (vm.Continue ip' vm' w') -> sameProgram vm vm'.
Proof.
  unfold vm.step. intros Hstep.
  apply bind_Ok in Hstep as (b & Hb & Hstep).
  apply bind_Ok in Hstep as (opArg & _ & Hstep).
  destruct (code.of_byte b) eqn:Hop; invert_ok;
    repeat match goal with
      | Hx : vm.pop _ = Ok _ |- _ => apply pop_sameProgram in Hx
      | Hx : vm.popN _ _ _ = Ok _ |- _ => apply popN_sameProgram in Hx
      | Hx : vm.lookup _ _ _ = Ok _ |- _ => apply lookup_sameProgram in Hx
      | Hx : vm.executeBinaryOperation _ _ _ = Ok _ |- _ =>
          apply executeBinaryOperation_sameProgram in Hx
      | Hx : vm.executeIndexExpression _ _ _ = Ok _ |- _ =>
          apply executeIndexExpression_sameProgram in Hx
      | Hx : vm.executeBangOperator _ = Ok _ |- _ =>
          apply (fun E => prefix_sameProgram _ _ (or_introl E)) in Hx
      | Hx : vm.executeMinusOperator _ = Ok _ |- _ =>
          apply (fun E => prefix_sameProgram _ _ (or_intror (or_introl E))) in Hx
      | Hx : vm.executeSquareRoot _ = Ok _ |- _ =>
          apply (fun E => prefix_sameProgram _ _ (or_intror (or_intror E))) in Hx
      end;
    repeat match goal with Hx : sameProgram _ _ |- _ => destruct Hx end;
    split; cbn; congruence.
Qed.



(** *** Canonical booleans *)

Lemma canonical_nativeBool (b : bool) : canonical (vm.nativeBoolToBooleanObject b).
Proof. destruct b; [left | right]; reflexivity. Qed.

Lemma step_true_false (obj : reflect.Record) (ip b : Z) (vm : vm.VM) (w : environment.World)
    (value : bool) :
  index (vm.bytecode vm) ip = Ok b ->
  code.of_byte b = (if value then code.OpTrue else code.OpFalse) ->
  vm.step obj ip vm w
  = Ok (vm.Continue (ip + 1) (vm.push (vm.nativeBoolToBooleanObject value) vm) w).
Proof.
  intros Hb Hop. unfold vm.step. rewrite Hb. cbn [bind]. rewrite Hop.
  destruct value; reflexivity.
Qed.

(** Whatever [executeBinaryOperation] pushes for a comparison, a
    logical operator or a regular-expression operator is [True] or
    [False]; it takes the two operands off the stack. *)
Lemma boolean_operator_pushes_canonical (op : code.Opcode) (vm vm' : vm.VM)
    (w w' : environment.World) :
  pushesBoolean op = true ->
  vm.executeBinaryOperation op vm w = Ok (vm', w') ->
  exists right left s b,
    vm.stack vm = right :: left :: s
    /\ vm.stack vm' = vm.nativeBoolToBooleanObject b :: s.
Proof.
  intros Hop Hexec. unfold vm.executeBinaryOperation, vm.pop in Hexec.
  destruct (vm.stack vm) as [|right [|left s]] eqn:Es; try discriminate Hexec.
  exists right, left, s. cbn in Hexec.
  assert (exists b, vm.stack vm' = vm.nativeBoolToBooleanObject b :: s) as [b Hb];
    [|now exists b].
  destruct left, right; destruct op; try discriminate Hop; cbn in Hexec;
    unfold vm.callMatch in Hexec; invert_ok;
    first [ now eexists | now exists true | now exists false ].
Qed.

Lemma fnMatch_answers_a_boolean (a b : object.Object) (w : environment.World) :
  exists v w', environment.fnMatch [a; b] w = Ok (object.Boolean object.Heap v, w').
Proof.
  unfold environment.fnMatch. cbn [environment.len length].
  change (negb (Z.of_nat 2 =? 2)) with false. cbv iota.
  change (index [a; b] 0) with (Ok a). change (index [a; b] 1) with (Ok b).
  cbn [bind].
  destruct (environment.regCache w !! object.Inspect b); [now eexists _, _|].
  destruct (regexp_Compile (object.Inspect b)); now eexists _, _.
Qed.

(** C9.  The booleans that the machine itself pushes are the shared
    objects [True] and [False]: at the opcodes TRUE and FALSE, for
    every comparison of two integers, two floats, an integer and a
    float, or two strings, for AND and OR, and for MATCHES and
    NOT_MATCHES, whose answer from [match] is turned into [True] or
    [False]; so are the booleans that BANG pushes. *)
Theorem vm_pushes_canonical_booleans :
  (forall obj ip b vm w (value : bool),
      index (vm.bytecode vm) ip = Ok b ->
      code.of_byte b = (if value then code.OpTrue else code.OpFalse) ->
      vm.step obj ip vm w
      = Ok (vm.Continue (ip + 1) (vm.push (vm.nativeBoolToBooleanObject value) vm) w))
  /\ (forall op left right s vm w,
      comparison op = true -> typedArm left right = true ->
      exists b, vm.executeBinaryOperation op (onStack (right :: left :: s) vm) w
                = Ok (onStack (vm.nativeBoolToBooleanObject b :: s) vm, w))
  /\ (forall op left right s vm w,
      op = code.OpAnd \/ op = code.OpOr -> typedArm left right = false ->
      exists b, vm.executeBinaryOperation op (onStack (right :: left :: s) vm) w
                = Ok (onStack (vm.nativeBoolToBooleanObject b :: s) vm, w))
  /\ (forall op l r s vm w,
      op = code.OpMatches \/ op = code.OpNotMatches ->
      environment.GetFunction (vm.environment vm) "match" = Some environment.fnMatch ->
      exists b w',
        vm.executeBinaryOperation op
          (onStack (object.String r :: object.String l :: s) vm) w
        = Ok (onStack (vm.nativeBoolToBooleanObject b :: s) vm, w'))
  /\ (forall op vm vm' w w',
      pushesBoolean op = true ->
      vm.executeBinaryOperation op vm w = Ok (vm', w') ->
      exists right left s b,
        vm.stack vm = right :: left :: s
        /\ vm.stack vm' = vm.nativeBoolToBooleanObject b :: s)
  /\ (forall vm vm',
      vm.executeBangOperator vm = Ok vm' ->
      exists operand s b,
        vm.stack vm = operand :: s
        /\ vm.stack vm' = vm.nativeBoolToBooleanObject b :: s)
  /\ (forall b, canonical (vm.nativeBoolToBooleanObject b)).
Proof.
  repeat apply conj.
  - apply step_true_false.
  - intros op left right s vm w Hop Ht.
    destruct left, right; try discriminate Ht;
      destruct op; try discriminate Hop; now eexists.
  - intros op left right s vm w [-> | ->] Ht.
    + rewrite (and_outside_typed_arms left right s vm w Ht). unfold truthiness.
      exists (object.True left && object.True right).
      now destruct (object.True left), (object.True right).
    + rewrite (or_outside_typed_arms left right s vm w Ht). unfold truthiness.
      exists (object.True left || object.True right).
      now destruct (object.True left), (object.True right).
  - intros op l r s vm w Hop Hmatch.
    destruct (fnMatch_answers_a_boolean (object.String l) (object.String r) w)
      as (v & w' & Hv).
    destruct Hop as [-> | ->].
    + exists v, w'. cbn. unfold vm.callMatch. cbn. rewrite Hmatch, Hv. cbn.
      now destruct v.
    + exists (negb v), w'. cbn. unfold vm.callMatch. cbn. rewrite Hmatch, Hv. cbn.
      now destruct v.
  - apply boolean_operator_pushes_canonical.
  - intros vm vm' Hbang. unfold vm.executeBangOperator, vm.pop in Hbang.
    destruct (vm.stack vm) as [|operand s]; [discriminate|].
    exists operand, s. cbn in Hbang. invert_ok;
      first [ now exists true | now exists false ].
  - apply canonical_nativeBool.
Qed.

(** *** Operators on booleans *)

(** C7, amended.  For two booleans every binary operator other than
    AND and OR is the operator of strings on the texts [true] and
    [false] of the operands: equality and the order are those of the
    texts, so that [false < true] is true, and the result is a function
    of the operands.  No other pair of operands is compared by its
    texts: outside the numeric and string arms, and apart from AND and
    OR, operands that are not both booleans give the error "type
    mismatch" when their types differ and "unknown operator" when they
    are the same. *)
Theorem boolean_operators_work_on_the_texts :
  (forall op left right s vm w,
      object.Type' left = object.BOOLEAN -> object.Type' right = object.BOOLEAN ->
      op <> code.OpAnd -> op <> code.OpOr ->
      vm.executeBinaryOperation op (onStack (right :: left :: s) vm) w
      = vm.evalStringInfixExpression op (object.String (object.Inspect left))
          (object.String (object.Inspect right)) (onStack s vm) w)
  /\ (forall la lb ra rb,
      object.Inspect (object.Boolean la lb) = (if lb then "true" else "false")
      /\ forall s vm w,
        vm.executeBinaryOperation code.OpLess
          (onStack (object.Boolean ra rb :: object.Boolean la lb :: s) vm) w
        = Ok (onStack (vm.nativeBoolToBooleanObject
                         (String.ltb (if lb then "true" else "false")
                                     (if rb then "true" else "false")) :: s) vm, w))
  /\ (forall s vm w,
      vm.executeBinaryOperation code.OpLess (onStack (vm.True :: vm.False :: s) vm) w
      = Ok (onStack (vm.True :: s) vm, w))
  /\ (forall op left right s vm w,
      typedArm left right = false ->
      object.Type' left <> object.BOOLEAN \/ object.Type' right <> object.BOOLEAN ->
      op <> code.OpAnd -> op <> code.OpOr ->
      vm.executeBinaryOperation op (onStack (right :: left :: s) vm) w
      = Fail (Error (if object.Type_eqb (object.Type' left) (object.Type' right)
                     then UnknownOperator (object.Type' left) op (object.Type' right)
                     else TypeMismatch (object.Type' left) op (object.Type' right)))).
Proof.
  repeat apply conj.
  - intros op left right s vm w Hl Hr Hand Hor.
    destruct left, right; try discriminate Hl; try discriminate Hr;
      destruct op; try contradiction; reflexivity.
  - intros la lb ra rb. split; [reflexivity|]. intros s vm w. reflexivity.
  - reflexivity.
  - intros op left right s vm w Ht Hb Hand Hor.
    destruct left, right; try discriminate Ht;
      try (destruct Hb as [Hb | Hb]; cbn in Hb; congruence);
      destruct op; try contradiction; reflexivity.
Qed.

End Properties.

(** ** The properties on examples *)

Section Examples.
#[local] Existing Instance sample.runtime.
#[local] Existing Instance sample.table.

Lemma and_or_in_typed_arm_witness :
  typedArm (object.Integer 1) (object.Integer 2) = true
  /\ vm.executeBinaryOperation code.OpAnd
       (onStack [object.Integer 2; object.Integer 1] (sample.machine [] [])) sample.world
     = Fail (Error (UnknownOperator object.INTEGER code.OpAnd object.INTEGER)).
Proof.
  split; [reflexivity|].
  apply (and_or_in_typed_arm_is_unknown_operator code.OpAnd
           (object.Integer 1) (object.Integer 2)); [left; reflexivity | reflexivity].
Defined.

(** [1 && "a"] is computed, [1 && 2] is not: the script
    [return 1 && 2;] ends in the error. *)
Example and_of_integer_and_string :
  vm.executeBinaryOperation code.OpAnd
    (onStack [object.String "a"; object.Integer 1] (sample.machine [] [])) sample.world
  = Ok (onStack [vm.True] (sample.machine [] []), sample.world).
Proof. reflexivity. Qed.

Example and_of_two_integers_ends_the_run :
  vm.Run 3 reflect.Nil (sample.machine [] sample.return_1_and_2) sample.world
  = Some (Fail (Error (UnknownOperator object.INTEGER code.OpAnd object.INTEGER))).
Proof. vm_compute. reflexivity. Qed.

(** Indexing a string: within bounds, at its length, beyond it, and at
    a byte that is not ASCII, which comes back as two bytes. *)
Example index_string_examples :
  vm.executeIndexExpression (object.String "abc") (object.Integer 2) (sample.machine [] [])
  = Ok (onStack [object.String "c"] (sample.machine [] []))
  /\ vm.executeIndexExpression (object.String "abc") (object.Integer 3) (sample.machine [] [])
     = Fail (Panic IndexOutOfRange)
  /\ vm.executeIndexExpression (object.String "abc") (object.Integer 4) (sample.machine [] [])
     = Ok (onStack [vm.Null] (sample.machine [] []))
  /\ vm.executeIndexExpression (object.Array [object.Integer 5]) (object.Integer 1)
       (sample.machine [] [])
     = Ok (onStack [vm.Null] (sample.machine [] []))
  /\ String.length (vm.stringOfByte (Ascii.ascii_of_nat 233)) = 2%nat.
Proof. repeat split. Qed.

(** The script [return "abc"[3];] ends in a panic. *)
Example index_at_length_ends_the_run :
  let '(bytecode, constants) := sample.return_abc_at_3 in
  vm.Run 4 reflect.Nil (sample.machine constants bytecode) sample.world
  = Some (Fail (Panic IndexOutOfRange)).
Proof. vm_compute. reflexivity. Qed.

(** The script [return !Flag;] on a record whose [Flag] is false
    returns [False]. *)
Example not_of_false_field_returns_false :
  let '(bytecode, constants) := sample.return_not_Flag in
  vm.Run 3 sample.message (sample.machine constants bytecode) sample.world
  = Some (Ok vm.False).
Proof. vm_compute. reflexivity. Qed.

Lemma division_by_zero_witness :
  vm.Run 3 reflect.Nil
    (sample.machine []
       (return_10_div_0 (sample.byte code.OpPush) (sample.byte code.OpDiv)
          (sample.byte code.OpReturn))) sample.world
  = Some (Fail (Error DivisionByZero))
  /\ vm.executeBinaryOperation code.OpDiv
       (onStack [object.Float 0%float; object.Integer 1] (sample.machine [] [])) sample.world
     = Fail (Error DivisionByZero)
  /\ vm.executeBinaryOperation code.OpDiv
       (onStack [object.Integer 3; object.Integer 10] (sample.machine [] [])) sample.world
     = Ok (onStack [object.Integer 3] (sample.machine [] []), sample.world).
Proof.
  pose proof division_by_zero_is_an_error
    as (_ & Hfloat & Hinteger & _ & _ & Hscript & _).
  split; [|split].
  - apply Hscript; reflexivity.
  - apply (Hfloat (object.Integer 1) (object.Float 0%float) 1%float 0%float);
      [right; reflexivity | reflexivity | reflexivity | reflexivity].
  - apply (Hinteger 10 3). discriminate.
Defined.



Lemma match_tests_the_trimmed_lines_witness :
  coherent sample.world
  /\ exists v w',
       environment.fnMatch [object.String sample.twoLines; object.String "second"]
         sample.world
       = Ok (object.Boolean object.Heap v, w')
       /\ coherent w'.
Proof.
  assert (Hw : coherent sample.world).
  { intros reg r Hl. cbn in Hl. rewrite lookup_empty in Hl. discriminate Hl. }
  split; [exact Hw|].
  destruct (match_tests_the_trimmed_lines (object.String sample.twoLines)
              (object.String "second") sample.world Hw) as (v & w' & Hm & Hc & _).
  exists v, w'. split; [exact Hm | exact Hc].
Defined.

(** The padded second line matches once trimmed; a pattern that does
    not compile gives false and a message on the standard output. *)
Example match_examples :
  (exists w', environment.fnMatch
                [object.String sample.twoLines; object.String "second"] sample.world
              = Ok (object.Boolean object.Heap true, w'))
  /\ (exists w', environment.fnMatch
                   [object.String sample.twoLines; object.String "third"] sample.world
                 = Ok (object.Boolean object.Heap false, w'))
  /\ (exists w', environment.fnMatch
                   [object.String sample.twoLines; object.String "("] sample.world
                 = Ok (object.Boolean object.Heap false, w')
                 /\ length (environment.stdout w') = 1%nat).
Proof. repeat split; eexists; vm_compute; repeat split. Qed.

Lemma boolean_operators_witness :
  vm.executeBinaryOperation code.OpEqual
    (onStack [vm.True; vm.False] (sample.machine [] [])) sample.world
  = vm.evalStringInfixExpression code.OpEqual (object.String "false") (object.String "true")
      (sample.machine [] []) sample.world
  /\ vm.executeBinaryOperation code.OpEqual
       (onStack [object.Integer 1; object.Null object.Heap] (sample.machine [] []))
       sample.world
     = Fail (Error (TypeMismatch object.NULL code.OpEqual object.INTEGER)).
Proof.
  pose proof boolean_operators_work_on_the_texts as (Hbool & _ & _ & Hother).
  split.
  - apply (Hbool code.OpEqual vm.False vm.True []); [reflexivity | reflexivity | | ];
      discriminate.
  - apply (Hother code.OpEqual (object.Null object.Heap) (object.Integer 1) []);
      [reflexivity | left; discriminate | discriminate | discriminate].
Defined.

(** Two arrays are not compared by their texts: [[] == []] is the
    error "unknown operator", where the comparison of the texts would
    push [True]. *)
Lemma arrays_are_not_compared_by_their_texts :
  vm.executeBinaryOperation code.OpEqual
    (onStack [object.Array []; object.Array []] (sample.machine [] [])) sample.world
  = Fail (Error (UnknownOperator object.ARRAY code.OpEqual object.ARRAY))
  /\ vm.evalStringInfixExpression code.OpEqual
       (object.String (object.Inspect (object.Array [])))
       (object.String (object.Inspect (object.Array [])))
       (sample.machine [] []) sample.world
     = Ok (onStack [vm.True] (sample.machine [] []), sample.world).
Proof. split; reflexivity. Qed.


Lemma vm_pushes_canonical_booleans_witness :
  (exists b, vm.executeBinaryOperation code.OpLess
               (onStack [object.Integer 2; object.Integer 1] (sample.machine [] []))
               sample.world
             = Ok (onStack [vm.nativeBoolToBooleanObject b] (sample.machine [] []),
                   sample.world))
  /\ (exists b w', vm.executeBinaryOperation code.OpMatches
                     (onStack [object.String "second"; object.String sample.twoLines]
                        (sample.machine [] [])) sample.world
                   = Ok (onStack [vm.nativeBoolToBooleanObject b] (sample.machine [] []), w')).
Proof.
  pose proof vm_pushes_canonical_booleans as (_ & Hcompare & _ & Hmatch & _).
  split.
  - apply (Hcompare code.OpLess (object.Integer 1) (object.Integer 2) []); reflexivity.
  - apply (Hmatch code.OpMatches sample.twoLines "second" []);
      [left; reflexivity | reflexivity].
Defined.

Lemma builtins_check_their_argument_count_witness :
  environment.fnLen [] = Ok (object.Null object.Heap)
  /\ environment.fnMatch [object.String "a"] sample.world
     = Ok (object.Boolean object.Heap false, sample.world).
Proof.
  split.
  - pose proof (builtins_check_their_argument_count [] sample.world) as (Hone & _).
    apply Hone. discriminate.
  - pose proof (builtins_check_their_argument_count [object.String "a"] sample.world)
      as (_ & Htwo & _).
    apply Htwo. discriminate.
Defined.

End Examples.


(** ** Further properties of the machine *)

Section Coverage.
Context `{GoRuntime} `{code.Table}.

(** *** Binary operators *)

(** X1.  [executeBinaryOperation] pops its two operands before it looks
    at the operator: with fewer than two values on the stack every
    operator, known or not, ends in the error of the empty stack. *)
Theorem binary_operation_needs_two_operands
    (op : code.Opcode) (vm : vm.VM) (w : environment.World) :
  (length (vm.stack vm) < 2)%nat ->
  vm.executeBinaryOperation op vm w = Fail (Error StackUnderflow).
Proof.
  intros Hlen. unfold vm.executeBinaryOperation, vm.pop.
  destruct (vm.stack vm) as [|right [|left s]]; cbn in *; try reflexivity. lia.
Qed.

(** X2.  A binary operation that ends well has taken the two operands
    off the stack and put one value in their place; nothing else of the
    machine has changed, and the world outside has not either unless
    the operator is one of the two that call [match]. *)
Theorem binary_operation_replaces_two_by_one
    (op : code.Opcode) (vm vm' : vm.VM) (w w' : environment.World) :
  vm.executeBinaryOperation op vm w = Ok (vm', w') ->
  exists right left s o,
    vm.stack vm = right :: left :: s
    /\ vm' = onStack (o :: s) vm
    /\ (op <> code.OpMatches -> op <> code.OpNotMatches -> w' = w).
Proof.
  intros Hexec. unfold vm.executeBinaryOperation, vm.pop in Hexec.
  destruct (vm.stack vm) as [|right [|left s]] eqn:Es; try discriminate Hexec.
  exists right, left, s. cbn in Hexec.
  assert (exists o, vm' = onStack (o :: s) vm
                    /\ (op <> code.OpMatches -> op <> code.OpNotMatches -> w' = w))
    as (o & Hvm & Hw); [|now exists o].
  destruct left, right; destruct op; cbn in Hexec;
    unfold vm.callMatch in Hexec; invert_ok;
    eexists; (split; [reflexivity | intros; congruence]).
Qed.

Lemma wrap64_range (z : Z) : inInt64 (wrap64 z).
Proof.
  unfold inInt64, wrap64.
  pose proof (Z.mod_pos_bound (z + 2 ^ 63) (2 ^ 64) ltac:(lia)). lia.
Qed.

Lemma wrap64_id (z : Z) : inInt64 z -> wrap64 z = z.
Proof.
  unfold inInt64, wrap64. intros Hz.
  rewrite Z.mod_small by lia. lia.
Qed.

(** X3.  On two integers, addition, subtraction, multiplication and
    division by a divisor other than zero push the result reduced to
    an [int64]: always a value of an [int64], and the exact result
    whenever that one is such a value.  No overflow is an error. *)
Theorem integer_arithmetic_wraps
    (op : code.Opcode) (l r z : Z) (s : list object.Object) (vm : vm.VM)
    (w : environment.World) :
  arith op l r = Some z ->
  vm.executeBinaryOperation op (onStack (object.Integer r :: object.Integer l :: s) vm) w
  = Ok (onStack (object.Integer (wrap64 z) :: s) vm, w)
  /\ inInt64 (wrap64 z)
  /\ (inInt64 z -> wrap64 z = z).
Proof.
  intros Hz. split; [|split; [apply wrap64_range | apply wrap64_id]].
  destruct op; try discriminate Hz; cbn in Hz |- *.
  - now injection Hz as <-.
  - now injection Hz as <-.
  - now injection Hz as <-.
  - destruct (r =? 0); [discriminate|]. now injection Hz as <-.
Qed.

(** X4.  The modulus is not guarded as the division is: on two
    integers a zero divisor is a panic of the Go runtime ("integer
    divide by zero"), not the error [DivisionByZero], and so it is with
    a float among the operands as soon as the divisor truncates to
    zero.  With a divisor other than zero the result on integers is the
    remainder of the truncated division. *)
Theorem modulus_by_zero_panics :
  (forall (l : Z) s vm w,
      vm.executeBinaryOperation code.OpMod
        (onStack (object.Integer 0 :: object.Integer l :: s) vm) w
      = Fail (Panic IntegerDivideByZero))
  /\ (forall left right lf rf s vm w,
      object.Type' left = object.FLOAT \/ object.Type' right = object.FLOAT ->
      promoted left = Some lf -> promoted right = Some rf ->
      int64_of_float64 rf = 0 ->
      vm.executeBinaryOperation code.OpMod (onStack (right :: left :: s) vm) w
      = Fail (Panic IntegerDivideByZero))
  /\ (forall (l r : Z) s vm w,
      r <> 0 ->
      exists m,
        vm.executeBinaryOperation code.OpMod
          (onStack (object.Integer r :: object.Integer l :: s) vm) w
        = Ok (onStack (object.Integer m :: s) vm, w)
        /\ l = r * Z.quot l r + m /\ Z.abs m < Z.abs r).
Proof.
  repeat apply conj.
  - reflexivity.
  - intros left right lf rf s vm w Hf Hl Hr Hz.
    destruct left, right; cbn in Hl, Hr; try discriminate;
      destruct Hf as [Hf | Hf]; try discriminate Hf;
      injection Hl as <-; injection Hr as <-; cbn; now rewrite Hz.
  - intros l r s vm w Hr. exists (Z.rem l r). split; [|split].
    + cbn. now replace (r =? 0) with false by (symmetry; now apply Z.eqb_neq).
    + apply Z.quot_rem'.
    + now apply Z.rem_bound_abs.
Qed.

Lemma string_ltb_gtb (l r : string) :
  String.ltb l r = true -> String.ltb r l = false /\ String.eqb l r = false.
Proof.
  unfold String.ltb. intros Hlt.
  destruct (String.compare l r) eqn:E; try discriminate. split.
  - rewrite String.compare_antisym, E. reflexivity.
  - apply String.eqb_neq. intros ->.
    pose proof (String.compare_antisym r r) as Hrr.
    rewrite E in Hrr. discriminate Hrr.
Qed.

(** X5.  On two strings [+] is the concatenation; the operators that
    have no case in [evalStringInfixExpression] (subtraction,
    multiplication, division, modulus, power, AND, OR) are the error
    "unknown operator"; and of [l < r], [l == r] and [l > r] exactly one
    pushes [True]. *)
Theorem string_operators :
  (forall l r s vm w,
      vm.executeBinaryOperation code.OpAdd
        (onStack (object.String r :: object.String l :: s) vm) w
      = Ok (onStack (object.String (l +:+ r) :: s) vm, w))
  /\ (forall op l r s vm w,
      stringOp op = false ->
      vm.executeBinaryOperation op
        (onStack (object.String r :: object.String l :: s) vm) w
      = Fail (Error (UnknownOperator object.STRING op object.STRING)))
  /\ (forall l r s vm w,
      exists lt eq gt : bool,
        vm.executeBinaryOperation code.OpLess
          (onStack (object.String r :: object.String l :: s) vm) w
        = Ok (onStack (vm.nativeBoolToBooleanObject lt :: s) vm, w)
        /\ vm.executeBinaryOperation code.OpEqual
             (onStack (object.String r :: object.String l :: s) vm) w
           = Ok (onStack (vm.nativeBoolToBooleanObject eq :: s) vm, w)
        /\ vm.executeBinaryOperation code.OpGreater
             (onStack (object.String r :: object.String l :: s) vm) w
           = Ok (onStack (vm.nativeBoolToBooleanObject gt :: s) vm, w)
        /\ ((lt = true /\ eq = false /\ gt = false)
            \/ (lt = false /\ eq = true /\ gt = false)
            \/ (lt = false /\ eq = false /\ gt = true))).
Proof.
  repeat apply conj.
  - reflexivity.
  - intros op l r s vm w Hop. destruct op; try discriminate Hop; reflexivity.
  - intros l r s vm w.
    exists (String.ltb l r), (String.eqb l r), (String.ltb r l).
    repeat (split; [reflexivity|]).
    destruct (String.ltb l r) eqn:Elt.
    + apply string_ltb_gtb in Elt as [-> ->]. now left.
    + destruct (String.ltb r l) eqn:Egt.
      * apply string_ltb_gtb in Egt as [_ Heq].
        rewrite String.eqb_sym, Heq. now right; right.
      * right; left. repeat split.
        apply String.eqb_eq. apply String.compare_eq_iff.
        unfold String.ltb in Elt, Egt. rewrite String.compare_antisym in Egt.
        destruct (String.compare l r); [reflexivity | discriminate | discriminate].
Qed.

(** X6.  An integer beside a float is promoted and then treated as a
    float: for every operator of the functions on floats, an integer
    and a float give what the two floats give, failures included. *)
Theorem mixed_operands_are_promoted
    (op : code.Opcode) (i : Z) (f : float) (s : list object.Object) (vm : vm.VM)
    (w : environment.World) :
  floatOp op = true ->
  vm.executeBinaryOperation op (onStack (object.Float f :: object.Integer i :: s) vm) w
  = vm.executeBinaryOperation op
      (onStack (object.Float f :: object.Float (float64_of_int64 i) :: s) vm) w
  /\ vm.executeBinaryOperation op (onStack (object.Integer i :: object.Float f :: s) vm) w
     = vm.executeBinaryOperation op
         (onStack (object.Float (float64_of_int64 i) :: object.Float f :: s) vm) w.
Proof. intros Hop. destruct op; try discriminate Hop; split; reflexivity. Qed.

(** *** Arrays, indexing and calls *)

Lemma popN_reverses (ys s acc : list object.Object) (vm : vm.VM) :
  vm.stack vm = (ys ++ s)%list ->
  vm.popN (length ys) vm acc = Ok ((rev ys ++ acc)%list, onStack s vm).
Proof.
  revert vm acc. induction ys as [|y ys IH]; intros vm acc Hs; cbn [length vm.popN].
  - cbn in Hs. cbn [rev app]. unfold onStack. rewrite <- Hs. now destruct vm.
  - unfold vm.pop. rewrite Hs. cbn [app stack.Pop bind].
    rewrite (IH (vm.setStack (ys ++ s)%list vm) (y :: acc) eq_refl).
    cbn [rev]. now rewrite <- app_assoc.
Qed.

Lemma popN_underflow (n : nat) (acc : list object.Object) (vm : vm.VM) :
  (length (vm.stack vm) < n)%nat ->
  vm.popN n vm acc = Fail (Error StackUnderflow).
Proof.
  revert vm acc. induction n as [|n IH]; intros vm acc Hlen; [lia|].
  cbn [vm.popN]. unfold vm.pop.
  destruct (vm.stack vm) as [|y st] eqn:Es; [reflexivity|].
  cbn [stack.Pop bind]. apply IH. cbn in *. lia.
Qed.

(** X7.  [ARRAY n] takes the [n] values on top of the stack and pushes
    one array that holds them in the order in which they were pushed
    (the value on top is the last element); with fewer than [n] values
    on the stack it ends in the error of the empty stack. *)
Theorem array_literal_keeps_the_order
    (obj : reflect.Record) (ip b n : Z) (vm : vm.VM) (w : environment.World) :
  index (vm.bytecode vm) ip = Ok b ->
  code.of_byte b = code.OpArray ->
  vm.readOperand (vm.bytecode vm) ip = Ok n ->
  (forall xs s,
      n = Z.of_nat (length xs) -> vm.stack vm = (rev xs ++ s)%list ->
      vm.step obj ip vm w
      = Ok (vm.Continue (ip + 3) (onStack (object.Array xs :: s) vm) w))
  /\ ((length (vm.stack vm) < Z.to_nat n)%nat ->
       vm.step obj ip vm w = Fail (Error StackUnderflow)).
Proof.
  intros Hb Hop Harg.
  assert (Hstep : vm.step obj ip vm w
                  = (let* '(elements, vm) := vm.popN (Z.to_nat n) vm [] in
                     Ok (vm.Continue (ip + 3) (vm.push (object.Array elements) vm) w))).
  { unfold vm.step. rewrite Hb. cbn [bind]. rewrite Hop.
    cbn [code.Length]. change (1 <? 3) with true. cbv iota. now rewrite Harg. }
  split.
  - intros xs s -> Hs. rewrite Hstep, Nat2Z.id, <- (length_rev xs).
    rewrite (popN_reverses (rev xs) s [] vm Hs). cbn [bind].
    now rewrite rev_involutive, app_nil_r.
  - intros Hlen. rewrite Hstep. now rewrite popN_underflow.
Qed.

(** X8.  Indexing an array by an integer never fails: it pushes the
    element at that place, or [Null] when there is none.  A left
    operand that is neither an array nor a string is an error, whatever
    the index; then an index that is no integer is one. *)
Theorem array_index_is_total :
  (forall elements idx s vm,
      exists o,
        vm.executeIndexExpression (object.Array elements) (object.Integer idx) (onStack s vm)
        = Ok (onStack (o :: s) vm)
        /\ (0 <= idx < Z.of_nat (length elements) -> elements !! Z.to_nat idx = Some o)
        /\ (idx < 0 \/ Z.of_nat (length elements) <= idx -> o = vm.Null))
  /\ (forall left index_ vm,
      object.Type' left <> object.ARRAY -> object.Type' left <> object.STRING ->
      vm.executeIndexExpression left index_ vm
      = Fail (Error (IndexOperand (object.Type' left))))
  /\ (forall left index_ vm,
      object.Type' left = object.ARRAY \/ object.Type' left = object.STRING ->
      object.Type' index_ <> object.INTEGER ->
      vm.executeIndexExpression left index_ vm
      = Fail (Error (IndexNotInteger (object.Type' index_)))).
Proof.
  repeat apply conj.
  - intros elements idx s vm.
    destruct (Z_lt_dec idx 0) as [Hneg|Hpos];
      [|destruct (Z_le_dec (Z.of_nat (length elements)) idx) as [Hbig|Hin]].
    + exists vm.Null. split; [apply index_array_out_of_range; now left|].
      split; [lia | reflexivity].
    + exists vm.Null. split; [apply index_array_out_of_range; now right|].
      split; [lia | reflexivity].
    + destruct (index_array_in_range elements s idx vm ltac:(lia)) as (o & Ho & Hix).
      exists o. split; [exact Hix|]. split; [now intros _ | lia].
  - intros left index_ vm Ha Hs.
    destruct left; cbn in Ha, Hs; try congruence; reflexivity.
  - intros left index_ vm Hl Hi.
    destruct left; destruct Hl as [Hl|Hl]; try discriminate Hl;
      destruct index_; cbn in Hi; try congruence; reflexivity.
Qed.




(** X10.  [CALL n] takes the name of the function from the top of the
    stack, then [n] arguments, and calls the function of that name with
    the arguments in the order in which they were pushed; its result
    replaces them on the stack.  A name without a function is the error
    of the unknown function; a failure of the function ends the turn. *)
Theorem call_passes_the_arguments_in_order
    (obj : reflect.Record) (ip b n : Z) (fName : object.Object)
    (args s : list object.Object) (vm : vm.VM) (w : environment.World) :
  index (vm.bytecode vm) ip = Ok b ->
  code.of_byte b = code.OpCall ->
  vm.readOperand (vm.bytecode vm) ip = Ok n ->
  n = Z.of_nat (length args) ->
  vm.stack vm = (fName :: rev args ++ s)%list ->
  (forall out ret w',
      environment.GetFunction (vm.environment vm) (object.Inspect fName) = Some out ->
      out args w = Ok (ret, w') ->
      vm.step obj ip vm w = Ok (vm.Continue (ip + 3) (onStack (ret :: s) vm) w'))
  /\ (environment.GetFunction (vm.environment vm) (object.Inspect fName) = None ->
       vm.step obj ip vm w = Fail (Error (UnknownFunction (object.Inspect fName))))
  /\ (forall out f,
      environment.GetFunction (vm.environment vm) (object.Inspect fName) = Some out ->
      out args w = Fail f ->
      vm.step obj ip vm w = Fail f).
Proof.
  intros Hb Hop Harg -> Hs.
  assert (Hstep : vm.step obj ip vm w
    = match environment.GetFunction (vm.environment vm) (object.Inspect fName) with
      | None => Fail (Error (UnknownFunction (object.Inspect fName)))
      | Some out =>
          let* '(ret, w) := out args w in
          Ok (vm.Continue (ip + 3) (onStack (ret :: s) vm) w)
      end).
  { unfold vm.step. rewrite Hb. cbn [bind]. rewrite Hop.
    cbn [code.Length]. change (1 <? 3) with true. cbv iota. rewrite Harg. cbn [bind].
    unfold vm.pop. rewrite Hs. cbn [stack.Pop bind].
    rewrite Nat2Z.id, <- (length_rev args).
    rewrite (popN_reverses (rev args) s [] (vm.setStack (rev args ++ s)%list vm) eq_refl).
    cbn [bind]. rewrite rev_involutive, app_nil_r. reflexivity. }
  repeat apply conj.
  - intros out ret w' Hget Hout. now rewrite Hstep, Hget, Hout.
  - intros Hget. now rewrite Hstep, Hget.
  - intros out f Hget Hout. now rewrite Hstep, Hget, Hout.
Qed.

(** *** Operands, jumps and malformed programs *)

Lemma step_jump (obj : reflect.Record) (ip b target : Z) (vm : vm.VM)
    (w : environment.World) :
  index (vm.bytecode vm) ip = Ok b ->
  code.of_byte b = code.OpJump ->
  vm.readOperand (vm.bytecode vm) ip = Ok target ->
  vm.step obj ip vm w = Ok (vm.Continue target vm w).
Proof.
  intros Hb Hop Harg. unfold vm.step. rewrite Hb. cbn [bind]. rewrite Hop.
  cbn [code.Length]. change (1 <? 3) with true. cbv iota. rewrite Harg. cbn [bind].
  now rewrite Z.sub_add.
Qed.

(** X11.  The loop of [Run] need not end: at a [JUMP] whose operand is
    its own offset, no number of turns gives a result. *)
Theorem jump_to_itself_never_returns
    (fuel : nat) (obj : reflect.Record) (ip b : Z) (vm : vm.VM) (w : environment.World) :
  index (vm.bytecode vm) ip = Ok b ->
  code.of_byte b = code.OpJump ->
  vm.readOperand (vm.bytecode vm) ip = Ok ip ->
  vm.loop fuel obj ip vm w = None.
Proof.
  intros Hb Hop Harg. induction fuel as [|fuel IH]; [reflexivity|].
  rewrite (loop_continue fuel obj ip ip vm vm w w); [exact IH | |].
  - apply index_Ok_lt in Hb. lia.
  - now apply (step_jump obj ip b ip).
Qed.

(** X12.  The operand of a branch is the offset of the next
    instruction: [JUMP] goes there and leaves the machine as it is;
    [JUMP_IF_FALSE] takes the condition off the stack and goes there
    when the condition is not truthy, and to the instruction after
    itself when it is; on an empty stack it is an error. *)
Theorem branches_land_on_their_operand
    (obj : reflect.Record) (ip b target : Z) (vm : vm.VM) (w : environment.World) :
  index (vm.bytecode vm) ip = Ok b ->
  vm.readOperand (vm.bytecode vm) ip = Ok target ->
  (code.of_byte b = code.OpJump ->
     vm.step obj ip vm w = Ok (vm.Continue target vm w))
  /\ (code.of_byte b = code.OpJumpIfFalse ->
       forall condition s,
         vm.stack vm = condition :: s ->
         vm.step obj ip vm w
         = Ok (vm.Continue (if object.True condition then ip + 3 else target)
                 (onStack s vm) w))
  /\ (code.of_byte b = code.OpJumpIfFalse ->
       vm.stack vm = [] ->
       vm.step obj ip vm w = Fail (Error StackUnderflow)).
Proof.
  intros Hb Harg. repeat apply conj.
  - intros Hop. now apply (step_jump obj ip b target).
  - intros Hop condition s Hs. unfold vm.step. rewrite Hb. cbn [bind]. rewrite Hop.
    cbn [code.Length]. change (1 <? 3) with true. cbv iota. rewrite Harg. cbn [bind].
    unfold vm.pop. rewrite Hs. cbn [stack.Pop bind].
    destruct (object.True condition); cbn [negb]; [reflexivity|].
    now rewrite Z.sub_add.
  - intros Hop Hs. unfold vm.step. rewrite Hb. cbn [bind]. rewrite Hop.
    cbn [code.Length]. change (1 <? 3) with true. cbv iota. rewrite Harg. cbn [bind].
    unfold vm.pop. now rewrite Hs.
Qed.

Lemma big_endian (i : Z) : Z.lor (i mod 256) (Z.shiftl (i / 256) 8) = i.
Proof.
  apply Z.bits_inj'. intros n Hn. rewrite Z.lor_spec.
  change 256 with (2 ^ 8). destruct (Z_lt_dec n 8) as [Hlow|Hhigh].
  - rewrite Z.mod_pow2_bits_low by lia. rewrite Z.shiftl_spec_low by lia.
    apply orb_false_r.
  - rewrite Z.mod_pow2_bits_high by lia. rewrite Z.shiftl_spec by lia.
    rewrite <- Z.shiftr_div_pow2 by lia. rewrite Z.shiftr_spec by lia.
    cbn [orb]. f_equal. lia.
Qed.

(** X13.  The operand of an instruction is read high byte first, and
    every integer from 0 to 65535 comes back from its two bytes: the
    program [PUSH i; RETURN] returns [Integer(i)]. *)
Theorem push_returns_its_operand
    (i : Z) (fuel : nat) (obj : reflect.Record) (constants : list object.Object)
    (env : environment.Environment) (w : environment.World) (bPush bReturn : Z) :
  0 <= i <= 65535 ->
  code.of_byte bPush = code.OpPush ->
  code.of_byte bReturn = code.OpReturn ->
  0 <= i / 256 <= 255 /\ 0 <= i mod 256 <= 255
  /\ vm.readOperand [bPush; i / 256; i mod 256; bReturn] 0 = Ok i
  /\ vm.Run (S (S fuel)) obj (vm.New constants [bPush; i / 256; i mod 256; bReturn] env) w
     = Some (Ok (object.Integer i)).
Proof.
  intros Hi HPush HReturn.
  assert (Hread : vm.readOperand [bPush; i / 256; i mod 256; bReturn] 0 = Ok i).
  { change (vm.readOperand [bPush; i / 256; i mod 256; bReturn] 0)
      with (@Ok Z (Z.lor (i mod 256) (Z.shiftl (i / 256) 8))).
    now rewrite big_endian. }
  split; [|split; [|split]].
  - assert (i / 256 < 256) by (apply Z.div_lt_upper_bound; lia).
    assert (0 <= i / 256) by (apply Z.div_pos; lia). lia.
  - pose proof (Z.mod_pos_bound i 256 ltac:(lia)). lia.
  - exact Hread.
  - unfold vm.Run. change (Z.of_nat _ <? 1) with false. cbv iota.
    erewrite loop_continue;
      [ | reflexivity | now eapply step_push; [reflexivity | exact HPush | exact Hread] ].
    cbn [vm.loop]. change (0 + 3 <? Z.of_nat _) with true. cbv iota.
    now erewrite step_return; [ | reflexivity | exact HReturn | reflexivity ].
Qed.


(** *** Negation of numbers *)

Lemma wrap64_opp_opp (v : Z) : inInt64 v -> wrap64 (- wrap64 (- v)) = v.
Proof.
  intros Hv. destruct (Z.eq_dec v (- 2 ^ 63)) as [->|Hmin]; [reflexivity|].
  rewrite (wrap64_id (- v)) by (unfold inInt64 in *; lia).
  rewrite Z.opp_involutive. now apply wrap64_id.
Qed.

(** X15.  [MINUS] on an integer pushes its opposite as an [int64]: the
    opposite itself, except for the least [int64], which is its own
    opposite; twice in a row it gives the integer back.  On a value
    that is no number it is an error, and on an empty stack the error
    of the empty stack. *)
Theorem minus_twice_is_the_identity :
  (forall v s vm,
      inInt64 v ->
      vm.executeMinusOperator (onStack (object.Integer v :: s) vm)
      = Ok (onStack (object.Integer (wrap64 (- v)) :: s) vm)
      /\ (v <> - 2 ^ 63 -> wrap64 (- v) = - v)
      /\ (v = - 2 ^ 63 -> wrap64 (- v) = v)
      /\ (let* vm1 := vm.executeMinusOperator (onStack (object.Integer v :: s) vm) in
          vm.executeMinusOperator vm1)
         = Ok (onStack (object.Integer v :: s) vm))
  /\ (forall o s vm,
      object.Type' o <> object.INTEGER -> object.Type' o <> object.FLOAT ->
      vm.executeMinusOperator (onStack (o :: s) vm)
      = Fail (Error (UnsupportedNegation (object.Type' o))))
  /\ (forall vm, vm.stack vm = [] ->
      vm.executeMinusOperator vm = Fail (Error StackUnderflow)).
Proof.
  repeat apply conj.
  - intros v s vm Hv. split; [reflexivity|]. split; [|split].
    + intros Hmin. apply wrap64_id. unfold inInt64 in *. lia.
    + now intros ->.
    + cbn. now rewrite wrap64_opp_opp.
  - intros o s vm Hi Hf. destruct o; cbn in Hi, Hf; try congruence; reflexivity.
  - intros vm Hs. unfold vm.executeMinusOperator, vm.pop. now rewrite Hs.
Qed.

(** *** Reflection of slices *)





(** *** Effects of the built-in functions *)

Lemma print_fold (args : list object.Object) (w : environment.World) :
  environment.stdout
    (fold_left (fun w e => environment.Printf (object.Inspect e) w) args w)
  = (environment.stdout w ++ map object.Inspect args)%list
  /\ environment.regCache
       (fold_left (fun w e => environment.Printf (object.Inspect e) w) args w)
     = environment.regCache w.
Proof.
  revert w. induction args as [|a args IH]; intros w; cbn [fold_left map].
  - now rewrite app_nil_r.
  - destruct (IH (environment.Printf (object.Inspect a) w)) as [-> ->].
    cbn. now rewrite <- app_assoc.
Qed.

(** X17.  [print] returns [Integer(0)] and writes the inspect forms of
    its arguments on the standard output, in their order and after what
    was written before; it does not touch the cache of regular
    expressions. *)
Theorem print_writes_its_arguments_in_order
    (args : list object.Object) (w : environment.World) :
  exists w',
    environment.fnPrint args w = Ok (object.Integer 0, w')
    /\ environment.stdout w' = (environment.stdout w ++ map object.Inspect args)%list
    /\ environment.regCache w' = environment.regCache w.
Proof.
  eexists. split; [reflexivity|]. apply print_fold.
Qed.

Lemma fnMatch_two (h p : object.Object) (w : environment.World) :
  environment.fnMatch [h; p] w
  = match environment.regCache w !! object.Inspect p with
    | Some r =>
        Ok (object.Boolean object.Heap
              (environment.matchLines r
                 (strings.Split (object.Inspect h) environment.newline)), w)
    | None =>
        match regexp_Compile (object.Inspect p) with
        | inr err =>
            Ok (object.Boolean object.Heap false,
                environment.Printf
                  ("Invalid regular expression " +:+ object.Inspect p +:+ " " +:+ err) w)
        | inl r =>
            Ok (object.Boolean object.Heap
                  (environment.matchLines r
                     (strings.Split (object.Inspect h) environment.newline)),
                environment.setRegCache
                  (<[object.Inspect p := r]> (environment.regCache w)) w)
        end
    end.
Proof. reflexivity. Qed.

(** X18.  The cache of [match].  A pattern that compiles is in the
    cache after the call, nothing is written on the standard output,
    and the same call made again gives the same answer and changes
    nothing more.  A pattern that does not compile is never put in the
    cache: every call answers false, leaves the cache as it was and
    writes one more diagnostic on the standard output. *)
Theorem match_caches_what_compiles
    (h p : object.Object) (w : environment.World) :
  coherent w ->
  (forall r, regexp_Compile (object.Inspect p) = inl r ->
     exists v w',
       environment.fnMatch [h; p] w = Ok (object.Boolean object.Heap v, w')
       /\ environment.regCache w' !! object.Inspect p = Some r
       /\ environment.stdout w' = environment.stdout w
       /\ environment.fnMatch [h; p] w' = Ok (object.Boolean object.Heap v, w'))
  /\ (forall err, regexp_Compile (object.Inspect p) = inr err ->
       exists w',
         environment.fnMatch [h; p] w = Ok (object.Boolean object.Heap false, w')
         /\ environment.regCache w' = environment.regCache w
         /\ environment.stdout w'
            = (environment.stdout w
               ++ ["Invalid regular expression " +:+ object.Inspect p +:+ " " +:+ err])%list
         /\ exists w'',
              environment.fnMatch [h; p] w' = Ok (object.Boolean object.Heap false, w'')
              /\ length (environment.stdout w'') = S (S (length (environment.stdout w)))).
Proof.
  intros Hw. split.
  - intros r Hr. rewrite fnMatch_two.
    destruct (environment.regCache w !! object.Inspect p) as [r'|] eqn:Ecache.
    + pose proof (Hw _ _ Ecache) as Hr'. rewrite Hr in Hr'. injection Hr' as <-.
      eexists _, w. split; [reflexivity|]. split; [exact Ecache|]. split; [reflexivity|].
      rewrite fnMatch_two. now rewrite Ecache.
    + rewrite Hr. eexists _, _. split; [reflexivity|]. cbn.
      split; [apply lookup_insert_eq|]. split; [reflexivity|].
      rewrite fnMatch_two. cbn. now rewrite lookup_insert_eq.
  - intros err Herr.
    assert (Hmiss : environment.regCache w !! object.Inspect p = None).
    { destruct (environment.regCache w !! object.Inspect p) as [r|] eqn:Ecache;
        [|reflexivity].
      pose proof (Hw _ _ Ecache). congruence. }
    rewrite fnMatch_two, Hmiss, Herr. eexists. split; [reflexivity|]. cbn.
    split; [reflexivity|]. split; [reflexivity|].
    rewrite fnMatch_two. cbn. rewrite Hmiss, Herr. eexists. split; [reflexivity|].
    cbn. rewrite !length_app. cbn. lia.
Qed.

(** *** What an instruction leaves alone *)

Lemma sameRest_refl (vm : vm.VM) : sameRest vm vm.
Proof. now split. Qed.

Lemma sameRest_trans (vm1 vm2 vm3 : vm.VM) :
  sameRest vm1 vm2 -> sameRest vm2 vm3 -> sameRest vm1 vm3.
Proof. intros [] []. split; congruence. Qed.

Lemma pop_sameRest (vm vm' : vm.VM) (o : object.Object) :
  vm.pop vm = Ok (o, vm') -> sameRest vm vm'.
Proof.
  unfold vm.pop. destruct (vm.stack vm); [discriminate|]. cbn.
  intros [= <- <-]. now split.
Qed.

Lemma popN_sameRest (n : nat) (vm vm' : vm.VM) (acc popped : list object.Object) :
  vm.popN n vm acc = Ok (popped, vm') -> sameRest vm vm'.
Proof.
  revert vm acc. induction n as [|n IH]; intros vm acc Hpop; cbn in Hpop.
  - injection Hpop as <- <-. apply sameRest_refl.
  - apply bind_Ok in Hpop as ([o vm1] & Hpop1 & Hrest).
    eapply sameRest_trans; [exact (pop_sameRest _ _ _ Hpop1) | exact (IH _ _ Hrest)].
Qed.

Lemma executeBinaryOperation_sameRest (op : code.Opcode) (vm vm' : vm.VM)
    (w w' : environment.World) :
  vm.executeBinaryOperation op vm w = Ok (vm', w') -> sameRest vm vm'.
Proof.
  intros Hexec. unfold vm.executeBinaryOperation, vm.pop in Hexec.
  destruct (vm.stack vm) as [|right [|left s]] eqn:Es; try discriminate Hexec.
  cbn in Hexec.
  destruct left, right; destruct op; cbn in Hexec;
    unfold vm.callMatch in Hexec; invert_ok; now split.
Qed.

Lemma executeIndexExpression_sameRest (left index_ : object.Object) (vm vm' : vm.VM) :
  vm.executeIndexExpression left index_ vm = Ok vm' -> sameRest vm vm'.
Proof.
  unfold vm.executeIndexExpression. intros Hix.
  destruct left, index_; cbn in Hix; invert_ok; now split.
Qed.

Lemma prefix_sameRest (vm vm' : vm.VM) :
  vm.executeBangOperator vm = Ok vm' \/ vm.executeMinusOperator vm = Ok vm'
  \/ vm.executeSquareRoot vm = Ok vm' ->
  sameRest vm vm'.
Proof.
  unfold vm.executeBangOperator, vm.executeMinusOperator, vm.executeSquareRoot, vm.pop.
  destruct (vm.stack vm) as [|o s]; cbn; [intros [|[|]]; discriminate|].
  intros [Hx | [Hx | Hx]]; invert_ok; now split.
Qed.

Lemma lookup_sameEnvironment (obj : reflect.Record) (name : string) (vm vm' : vm.VM)
    (o : object.Object) :
  vm.lookup obj name vm = Ok (o, vm') -> vm.environment vm' = vm.environment vm.
Proof.
  unfold vm.lookup. destruct (environment.Get _ _).
  - now intros [= <- <-].
  - intros Hl. apply bind_Ok in Hl as (vm1 & Hvm1 & Hl).
    assert (vm.environment vm1 = vm.environment vm) as Henv.
    { destruct (size (vm.fields vm) =? 0)%nat.
      - destruct obj; cbn in Hvm1; invert_ok; reflexivity.
      - now injection Hvm1 as <-. }
    destruct (vm.fields vm1 !! _); now injection Hl as <- <-.
Qed.

(** X19.  What a turn of the loop leaves alone.  No instruction changes
    the bytecode or the constant pool; only [SET] changes the
    environment, and only [LOOKUP] the field cache. *)
Theorem instructions_leave_the_rest_alone
    (obj : reflect.Record) (ip ip' b : Z) (vm vm' : vm.VM) (w w' : environment.World) :
  index (vm.bytecode vm) ip = Ok b ->
  vm.step obj ip vm w = Ok (vm.Continue ip' vm' w') ->
  sameProgram vm vm'
  /\ (code.of_byte b <> code.OpSet -> vm.environment vm' = vm.environment vm)
  /\ (code.of_byte b <> code.OpLookup -> vm.fields vm' = vm.fields vm).
Proof.
  intros Hb Hstep. split; [exact (step_sameProgram _ _ _ _ _ _ _ Hstep)|].
  unfold vm.step in Hstep. rewrite Hb in Hstep. cbn [bind] in Hstep.
  apply bind_Ok in Hstep as (opArg & _ & Hstep).
  destruct (code.of_byte b) eqn:Hop; invert_ok;
    repeat match goal with
      | Hx : vm.pop _ = Ok _ |- _ => apply pop_sameRest in Hx
      | Hx : vm.popN _ _ _ = Ok _ |- _ => apply popN_sameRest in Hx
      | Hx : vm.lookup _ _ _ = Ok _ |- _ => apply lookup_sameEnvironment in Hx
      | Hx : vm.executeBinaryOperation _ _ _ = Ok _ |- _ =>
          apply executeBinaryOperation_sameRest in Hx
      | Hx : vm.executeIndexExpression _ _ _ = Ok _ |- _ =>
          apply executeIndexExpression_sameRest in Hx
      | Hx : vm.executeBangOperator _ = Ok _ |- _ =>
          apply (fun E => prefix_sameRest _ _ (or_introl E)) in Hx
      | Hx : vm.executeMinusOperator _ = Ok _ |- _ =>
          apply (fun E => prefix_sameRest _ _ (or_intror (or_introl E))) in Hx
      | Hx : vm.executeSquareRoot _ = Ok _ |- _ =>
          apply (fun E => prefix_sameRest _ _ (or_intror (or_intror E))) in Hx
      end;
    repeat match goal with Hx : sameRest _ _ |- _ => destruct Hx end;
    cbn; repeat split; intros; congruence.
Qed.

End Coverage.


(** ** The further properties on examples *)

Section CoverageExamples.
#[local] Existing Instance sample.runtime.
#[local] Existing Instance sample.table.

Lemma binary_operation_needs_two_operands_witness :
  vm.executeBinaryOperation code.OpAdd (onStack [object.Integer 1] (sample.machine [] []))
    sample.world
  = Fail (Error StackUnderflow).
Proof. apply binary_operation_needs_two_operands. cbn. lia. Defined.

Lemma binary_operation_replaces_two_by_one_witness :
  exists right left s o,
    vm.stack (onStack [object.Integer 2; object.Integer 1] (sample.machine [] []))
    = right :: left :: s
    /\ onStack [object.Integer 3] (sample.machine [] [])
       = onStack (o :: s) (onStack [object.Integer 2; object.Integer 1] (sample.machine [] []))
    /\ (code.OpAdd <> code.OpMatches -> code.OpAdd <> code.OpNotMatches ->
        sample.world = sample.world).
Proof.
  apply (binary_operation_replaces_two_by_one code.OpAdd
           (onStack [object.Integer 2; object.Integer 1] (sample.machine [] []))
           (onStack [object.Integer 3] (sample.machine [] [])) sample.world sample.world).
  reflexivity.
Defined.

(** The greatest [int64] plus one is the least. *)
Lemma integer_arithmetic_wraps_witness :
  vm.executeBinaryOperation code.OpAdd
    (onStack [object.Integer 1; object.Integer (2 ^ 63 - 1)] (sample.machine [] []))
    sample.world
  = Ok (onStack [object.Integer (- 2 ^ 63)] (sample.machine [] []), sample.world)
  /\ inInt64 (wrap64 (2 ^ 63))
  /\ (inInt64 (2 ^ 63) -> wrap64 (2 ^ 63) = 2 ^ 63).
Proof.
  apply (integer_arithmetic_wraps code.OpAdd (2 ^ 63 - 1) 1 (2 ^ 63) []
           (sample.machine [] []) sample.world).
  reflexivity.
Defined.

Lemma modulus_by_zero_panics_witness :
  vm.executeBinaryOperation code.OpMod
    (onStack [object.Integer 0; object.Float 1%float] (sample.machine [] [])) sample.world
  = Fail (Panic IntegerDivideByZero)
  /\ exists m,
       vm.executeBinaryOperation code.OpMod
         (onStack [object.Integer 3; object.Integer (-7)] (sample.machine [] []))
         sample.world
       = Ok (onStack [object.Integer m] (sample.machine [] []), sample.world)
       /\ -7 = 3 * Z.quot (-7) 3 + m /\ Z.abs m < Z.abs 3.
Proof.
  pose proof modulus_by_zero_panics as (_ & Hfloat & Hinteger).
  split.
  - apply (Hfloat (object.Float 1%float) (object.Integer 0) 1%float 0%float);
      [left; reflexivity | reflexivity | reflexivity | reflexivity].
  - apply (Hinteger (-7) 3). discriminate.
Defined.

Lemma string_operators_witness :
  vm.executeBinaryOperation code.OpSub
    (onStack [object.String "b"; object.String "a"] (sample.machine [] [])) sample.world
  = Fail (Error (UnknownOperator object.STRING code.OpSub object.STRING)).
Proof.
  pose proof string_operators as (_ & Hunknown & _).
  apply Hunknown. reflexivity.
Defined.

Lemma mixed_operands_are_promoted_witness :
  vm.executeBinaryOperation code.OpLess
    (onStack [object.Float 2.5%float; object.Integer 2] (sample.machine [] [])) sample.world
  = vm.executeBinaryOperation code.OpLess
      (onStack [object.Float 2.5%float; object.Float (float64_of_int64 2)]
         (sample.machine [] [])) sample.world
  /\ vm.executeBinaryOperation code.OpLess
       (onStack [object.Integer 2; object.Float 2.5%float] (sample.machine [] []))
       sample.world
     = vm.executeBinaryOperation code.OpLess
         (onStack [object.Float (float64_of_int64 2); object.Float 2.5%float]
            (sample.machine [] [])) sample.world.
Proof. apply mixed_operands_are_promoted. reflexivity. Defined.

(** [[1, 2]]: 1 pushed first, 2 on top. *)
Lemma array_literal_keeps_the_order_witness :
  vm.step reflect.Nil 0
    (onStack [object.Integer 2; object.Integer 1]
       (sample.machine [] [sample.byte code.OpArray; 0; 2])) sample.world
  = Ok (vm.Continue 3
          (onStack [object.Array [object.Integer 1; object.Integer 2]]
             (sample.machine [] [sample.byte code.OpArray; 0; 2])) sample.world).
Proof.
  pose proof (array_literal_keeps_the_order reflect.Nil 0 (sample.byte code.OpArray) 2
                (onStack [object.Integer 2; object.Integer 1]
                   (sample.machine [] [sample.byte code.OpArray; 0; 2]))
                sample.world eq_refl eq_refl eq_refl) as [Hok _].
  exact (Hok [object.Integer 1; object.Integer 2] [] eq_refl eq_refl).
Defined.

Lemma array_index_is_total_witness :
  vm.executeIndexExpression (object.Integer 1) (object.String "x") (sample.machine [] [])
  = Fail (Error (IndexOperand object.INTEGER))
  /\ vm.executeIndexExpression (object.Array []) (object.String "x") (sample.machine [] [])
     = Fail (Error (IndexNotInteger object.STRING)).
Proof.
  pose proof array_index_is_total as (_ & Hleft & Hindex).
  split.
  - apply Hleft; discriminate.
  - apply Hindex; [left; reflexivity | discriminate].
Defined.


(** [len([1, 2, 3])] through [CALL 1]. *)
Lemma call_passes_the_arguments_in_order_witness :
  vm.step reflect.Nil 0
    (onStack [object.String "len";
              object.Array [object.Integer 1; object.Integer 2; object.Integer 3]]
       (sample.machine [] [sample.byte code.OpCall; 0; 1])) sample.world
  = Ok (vm.Continue 3
          (onStack [object.Integer 3] (sample.machine [] [sample.byte code.OpCall; 0; 1]))
          sample.world).
Proof.
  pose proof (call_passes_the_arguments_in_order reflect.Nil 0 (sample.byte code.OpCall) 1
                (object.String "len")
                [object.Array [object.Integer 1; object.Integer 2; object.Integer 3]] []
                (onStack [object.String "len";
                          object.Array [object.Integer 1; object.Integer 2; object.Integer 3]]
                   (sample.machine [] [sample.byte code.OpCall; 0; 1]))
                sample.world eq_refl eq_refl eq_refl eq_refl eq_refl) as (Hcall & _).
  exact (Hcall (environment.pure environment.fnLen) (object.Integer 3) sample.world
           eq_refl eq_refl).
Defined.

Lemma jump_to_itself_never_returns_witness :
  vm.loop 1000 reflect.Nil 0 (sample.machine [] [sample.byte code.OpJump; 0; 0]) sample.world
  = None.
Proof.
  apply (jump_to_itself_never_returns 1000 reflect.Nil 0 (sample.byte code.OpJump));
    reflexivity.
Defined.

Lemma branches_land_on_their_operand_witness :
  vm.step reflect.Nil 0
    (onStack [vm.False] (sample.machine [] [sample.byte code.OpJumpIfFalse; 1; 2]))
    sample.world
  = Ok (vm.Continue 258 (sample.machine [] [sample.byte code.OpJumpIfFalse; 1; 2])
          sample.world).
Proof.
  pose proof (branches_land_on_their_operand reflect.Nil 0
                (sample.byte code.OpJumpIfFalse) 258
                (onStack [vm.False] (sample.machine [] [sample.byte code.OpJumpIfFalse; 1; 2]))
                sample.world eq_refl eq_refl) as (_ & Hif & _).
  exact (Hif eq_refl vm.False [] eq_refl).
Defined.

Lemma push_returns_its_operand_witness :
  0 <= 65535 / 256 <= 255 /\ 0 <= 65535 mod 256 <= 255
  /\ vm.readOperand [sample.byte code.OpPush; 65535 / 256; 65535 mod 256;
                     sample.byte code.OpReturn] 0
     = Ok 65535
  /\ vm.Run 2 reflect.Nil
       (vm.New [] [sample.byte code.OpPush; 65535 / 256; 65535 mod 256;
                   sample.byte code.OpReturn] environment.New) sample.world
     = Some (Ok (object.Integer 65535)).
Proof.
  apply (push_returns_its_operand 65535 0 reflect.Nil [] environment.New sample.world);
    [lia | reflexivity | reflexivity].
Defined.


Lemma minus_twice_is_the_identity_witness :
  (let* vm1 := vm.executeMinusOperator
                 (onStack [object.Integer (- 2 ^ 63)] (sample.machine [] [])) in
   vm.executeMinusOperator vm1)
  = Ok (onStack [object.Integer (- 2 ^ 63)] (sample.machine [] []))
  /\ vm.executeMinusOperator (onStack [object.String "a"] (sample.machine [] []))
     = Fail (Error (UnsupportedNegation object.STRING)).
Proof.
  pose proof minus_twice_is_the_identity as (Hinteger & Hother & _).
  split.
  - apply (Hinteger (- 2 ^ 63) [] (sample.machine [] [])). unfold inInt64. lia.
  - apply Hother; discriminate.
Defined.


Lemma match_caches_what_compiles_witness :
  coherent sample.world
  /\ exists v w',
       environment.fnMatch [object.String sample.twoLines; object.String "second"]
         sample.world
       = Ok (object.Boolean object.Heap v, w')
       /\ environment.regCache w' !! "second" = Some "second"
       /\ environment.stdout w' = environment.stdout sample.world
       /\ environment.fnMatch [object.String sample.twoLines; object.String "second"] w'
          = Ok (object.Boolean object.Heap v, w').
Proof.
  assert (Hw : coherent sample.world).
  { intros reg r Hl. cbn in Hl. rewrite lookup_empty in Hl. discriminate Hl. }
  split; [exact Hw|].
  pose proof (match_caches_what_compiles (object.String sample.twoLines)
                (object.String "second") sample.world Hw) as (Hcompiles & _).
  apply (Hcompiles "second"). reflexivity.
Defined.

Lemma instructions_leave_the_rest_alone_witness :
  sameProgram (sample.machine [] [sample.byte code.OpPush; 0; 7])
    (onStack [object.Integer 7] (sample.machine [] [sample.byte code.OpPush; 0; 7]))
  /\ (@code.of_byte sample.table (sample.byte code.OpPush) <> code.OpSet ->
      vm.environment
        (onStack [object.Integer 7] (sample.machine [] [sample.byte code.OpPush; 0; 7]))
      = vm.environment (sample.machine [] [sample.byte code.OpPush; 0; 7]))
  /\ (@code.of_byte sample.table (sample.byte code.OpPush) <> code.OpLookup ->
      vm.fields
        (onStack [object.Integer 7] (sample.machine [] [sample.byte code.OpPush; 0; 7]))
      = vm.fields (sample.machine [] [sample.byte code.OpPush; 0; 7])).
Proof.
  apply (instructions_leave_the_rest_alone reflect.Nil 0 3 (sample.byte code.OpPush)
           (sample.machine [] [sample.byte code.OpPush; 0; 7])
           (onStack [object.Integer 7] (sample.machine [] [sample.byte code.OpPush; 0; 7]))
           sample.world sample.world); reflexivity.
Defined.

End CoverageExamples.
